(** * Treasury tips: the derived state of a tip row

    A shallow embedding of [isCurrentTip] and [extractTipState] from
    [packages/page-treasury/src/Tips/Tip.tsx], with the properties of the
    tip aggregation that the specification states.

    The source is JavaScript: arrays are mutable objects reached through
    references, [Array.prototype.sort] sorts in place, an index outside an
    array reads [undefined], and a method call on [undefined] throws.  The
    embedding therefore runs in a small state-and-error monad over a heap
    of arrays, so that "the inputs are left unchanged" and "no index is out
    of range" are statements about the model and not conventions of it.

    The development then covers the rest of the code: the render of the
    [Tip] row, the asset metadata form, the asset infos hook, and the
    redirection and filtering of [Tabs]. *)

From Stdlib Require Import ZArith String Ascii List Lia Permutation Sorted.
From stdpp Require Import base numbers list sorting.
Import ListNotations.
Local Open Scope Z_scope.

(** ** Numbers *)

(** [bn.js] integers are signed and of arbitrary precision: no operation
    wraps.  Only the three methods the source calls are modelled. *)
Module BN.
Abbreviation t := Z (only parsing).

(** [a.cmp(b)]: -1, 0 or 1. *)
Definition cmp (a b : t) : Z :=
  match a ?= b with
  | Lt => -1
  | Eq => 0
  | Gt => 1
  end.

(** [a.add(b)] returns a fresh number, the exact sum. *)
Definition add (a b : t) : t := a + b.

(** [a.divn(n)] divides the magnitude and restores the sign: the quotient
    is truncated towards zero. *)
Definition divn (a : t) (n : Z) : t := a ÷ n.
End BN.

Definition BN_ZERO : BN.t := 0.

(** [Balance] is the chain's [u128], [BlockNumber] its [u32]; both are
    [bn.js] numbers whose value lies in the range of the type. *)
Abbreviation Balance := BN.t (only parsing).
Abbreviation BlockNumber := BN.t (only parsing).
Definition is_Balance (v : Z) : Prop := 0 <= v < 2 ^ 128.

(** JavaScript numbers holding array lengths are exact integers.
    [ToBoolean] of a number is [false] exactly at zero, [%] is the
    remainder with the sign of the dividend, and [Math.floor (a / 2)] of an
    integer is the floor quotient. *)
Definition truthy_number (n : Z) : bool := negb (n =? 0).
Definition js_rem (a b : Z) : Z := Z.rem a b.
Definition Math_floor_div (a b : Z) : Z := a / b.

(** ** Values read from a record field *)

(** What [tip.findersFee] can evaluate to.  The codec type [bool] of the
    chain's type library is a class extending the built-in [Boolean], so a
    field of that type holds an object wrapping the flag, never a
    primitive. *)
Inductive JsVal :=
| VUndefined
| VNull
| VPrimBool (b : bool)
| VBoolObject (b : bool).

(** [ToBoolean]: every object is truthy, whatever it wraps. *)
Definition ToBoolean (v : JsVal) : bool :=
  match v with
  | VUndefined | VNull => false
  | VPrimBool b => b
  | VBoolObject _ => true
  end.

(** [!!x] for [x : T | null] with [T] an object type. *)
Definition truthy_ref {A} (x : option A) : bool :=
  match x with
  | Some _ => true
  | None => false
  end.

(** [Option.unwrapOr]; [null] is [None]. *)
Definition unwrapOr {A} (o : option A) (d : option A) : option A :=
  match o with
  | Some x => Some x
  | None => d
  end.

Definition isSome {A} (o : option A) : bool :=
  match o with
  | Some _ => true
  | None => false
  end.

(** ** Sorting with a comparator *)

(** [Array.prototype.sort (cmp)] is stable: [b] is moved before [a] only
    when [cmp a b > 0].  Insertion from the right gives that order. *)
Fixpoint insert_by {A} (cmp : A -> A -> Z) (x : A) (l : list A) : list A :=
  match l with
  | [] => [x]
  | y :: r => if cmp x y <=? 0 then x :: y :: r else y :: insert_by cmp x r
  end.

Fixpoint js_sort {A} (cmp : A -> A -> Z) (l : list A) : list A :=
  match l with
  | [] => []
  | x :: r => insert_by cmp x (js_sort cmp r)
  end.

(** [Array.prototype.includes] on strings compares with [SameValueZero],
    which on strings is equality of contents. *)
Fixpoint includes (l : list string) (s : string) : bool :=
  match l with
  | [] => false
  | x :: r => if String.eqb x s then true else includes r s
  end.

(** ** The standard median, as the specification words it *)

(** With the amounts sorted ascending into [v] of length [n]: [v[n/2]] when
    [n] is odd, the floor of the mean of [v[n/2 - 1]] and [v[n/2]] when [n]
    is even. *)
Definition standard_median (v : list Z) : Z :=
  let n := length v in
  if Nat.odd n
  then nth (n / 2)%nat v 0
  else (nth (n / 2 - 1)%nat v 0 + nth (n / 2)%nat v 0) / 2.

Section Tips.

(** [AccountId] and [Hash] are byte strings of the chain; the source only
    ever asks an account for its address string. *)
Context {AccountId Hash : Type}.
Variable toString : AccountId -> string.

(** ** The heap *)

(** The three kinds of array the function touches: the contributions
    [Vec<(AccountId, Balance)>], a plain array of numbers, and the
    [string[]] of local accounts. *)
Inductive Arr :=
| ArrTips (ts : list (AccountId * Balance))
| ArrBN (vs : list BN.t)
| ArrStr (ss : list string).

(** A reference is the position of the object in the heap; allocation
    appends. *)
Abbreviation loc := nat (only parsing).
Abbreviation Heap := (list Arr) (only parsing).

Inductive Error :=
| EUndefined   (* a read produced [undefined] where a value is used *)
| EType        (* an object is not of the kind the code treats it as *)
| EDangling.   (* a reference to no object *)

Definition M (A : Type) : Type := Heap -> Error + (A * Heap).

Definition ret {A} (a : A) : M A := fun h => inr (a, h).

Definition bind {A B} (m : M A) (f : A -> M B) : M B :=
  fun h =>
    match m h with
    | inl e => inl e
    | inr (a, h') => f a h'
    end.

Definition throw {A} (e : Error) : M A := fun _ => inl e.

Notation "x <- m ;; k" := (bind m (fun x => k))
  (at level 100, m at next level, right associativity).

(** [vec.map (f)] allocates a new array and leaves [vec] alone. *)
Definition map_tips (f : AccountId * Balance -> BN.t) (l : loc) : M loc :=
  fun h =>
    match h !! l with
    | Some (ArrTips ts) => inr (length h, h ++ [ArrBN (map f ts)])
    | Some _ => inl EType
    | None => inl EDangling
    end.

(** [arr.sort (cmp)] overwrites [arr] and returns the same reference. *)
Definition sort_bn (cmp : BN.t -> BN.t -> Z) (l : loc) : M loc :=
  fun h =>
    match h !! l with
    | Some (ArrBN vs) => inr (l, <[l := ArrBN (js_sort cmp vs)]> h)
    | Some _ => inl EType
    | None => inl EDangling
    end.

Definition length_bn (l : loc) : M Z :=
  fun h =>
    match h !! l with
    | Some (ArrBN vs) => inr (Z.of_nat (length vs), h)
    | Some _ => inl EType
    | None => inl EDangling
    end.

(** [arr[i]] where the element is then used as a number.  Outside the
    array JavaScript reads [undefined]; the embedding reports that read. *)
Definition get_bn (l : loc) (i : Z) : M BN.t :=
  fun h =>
    match h !! l with
    | Some (ArrBN vs) =>
        if i <? 0 then inl EUndefined
        else match vs !! Z.to_nat i with
             | Some v => inr (v, h)
             | None => inl EUndefined
             end
    | Some _ => inl EType
    | None => inl EDangling
    end.

Definition includes_str (l : loc) (s : string) : M bool :=
  fun h =>
    match h !! l with
    | Some (ArrStr ss) => inr (includes ss s, h)
    | Some _ => inl EType
    | None => inl EDangling
    end.

(** [Array.prototype.some]: the callback runs on the elements in order
    until it answers [true]. *)
Fixpoint some_loop {A} (f : A -> M bool) (l : list A) : M bool :=
  match l with
  | [] => ret false
  | x :: r => b <- f x ;; if b then ret true else some_loop f r
  end.

Definition some_tips (f : AccountId * Balance -> M bool) (l : loc) : M bool :=
  fun h =>
    match h !! l with
    | Some (ArrTips ts) => some_loop f ts h
    | Some _ => inl EType
    | None => inl EDangling
    end.

(** [Option.unwrap] throws on [None]. *)
Definition unwrap {A} (o : option A) : M A :=
  match o with
  | Some x => ret x
  | None => throw EUndefined
  end.

(** ** Tip records *)

(** The current shape. *)
Record OpenTip := {
  ot_reason : Hash;
  ot_who : AccountId;
  ot_finder : AccountId;
  ot_deposit : Balance;
  ot_closes : option BlockNumber;
  ot_tips : loc;
  ot_findersFee : bool
}.

(** The legacy shape: the finder is optional and carries its deposit. *)
Record OpenTipTo225 := {
  lt_reason : Hash;
  lt_who : AccountId;
  lt_finder : option (AccountId * Balance);
  lt_closes : option BlockNumber;
  lt_tips : loc
}.

Inductive Tip :=
| Current (t : OpenTip)
| Legacy (t : OpenTipTo225).

(** Fields read on the union without narrowing. *)
Definition closes (tip : Tip) : option BlockNumber :=
  match tip with
  | Current t => ot_closes t
  | Legacy t => lt_closes t
  end.

Definition tips (tip : Tip) : loc :=
  match tip with
  | Current t => ot_tips t
  | Legacy t => lt_tips t
  end.

(** [(tip as OpenTip)?.findersFee]: the wrapped flag on the current shape,
    [undefined] on a record that has no such field. *)
Definition findersFee (tip : Tip) : JsVal :=
  match tip with
  | Current t => VBoolObject (ot_findersFee t)
  | Legacy _ => VUndefined
  end.

(** Reading the record as one shape; wrong when it is the other. *)
Definition as_OpenTip (tip : Tip) : M OpenTip :=
  match tip with
  | Current t => ret t
  | Legacy _ => throw EType
  end.

Definition as_OpenTipTo225 (tip : Tip) : M OpenTipTo225 :=
  match tip with
  | Legacy t => ret t
  | Current _ => throw EType
  end.

Record TipState := {
  closesAt : option BlockNumber;
  deposit : option Balance;
  finder : option AccountId;
  isFinder : bool;
  isTipped : bool;
  isTipper : bool;
  median : BN.t
}.

(** ** The two functions *)

Definition isCurrentTip (tip : Tip) : bool :=
  negb (negb (ToBoolean (findersFee tip))).

Definition extractTipState (tip : Tip) (allAccounts : loc) : M TipState :=
  let closesAt := unwrapOr (closes tip) None in
  fd <- (if isCurrentTip tip
         then t <- as_OpenTip tip ;;
              ret (Some (ot_finder t), Some (ot_deposit t))
         else t <- as_OpenTipTo225 tip ;;
              if isSome (lt_finder t)
              then finderInfo <- unwrap (lt_finder t) ;;
                   ret (Some (fst finderInfo), Some (snd finderInfo))
              else ret (None, None)) ;;
  let finder : option AccountId := fst fd in
  let deposit : option Balance := snd fd in
  mapped <- map_tips snd (tips tip) ;;
  values <- sort_bn BN.cmp mapped ;;
  len <- length_bn values ;;
  let midIndex := Math_floor_div len 2 in
  median <- (if truthy_number len
             then if truthy_number (js_rem len 2)
                  then get_bn values midIndex
                  else lo <- get_bn values (midIndex - 1) ;;
                       hi <- get_bn values midIndex ;;
                       ret (BN.divn (BN.add lo hi) 2)
             else ret BN_ZERO) ;;
  isFinder <- match finder with
              | Some f => includes_str allAccounts (toString f)
              | None => ret (truthy_ref finder)
              end ;;
  len' <- length_bn values ;;
  isTipper <- some_tips
                (fun c => includes_str allAccounts (toString (fst c)))
                (tips tip) ;;
  ret {| closesAt := closesAt;
         deposit := deposit;
         finder := finder;
         isFinder := isFinder;
         isTipped := negb (negb (truthy_number len'));
         isTipper := isTipper;
         median := median |}.

End Tips.

Abbreviation loc := nat (only parsing).
Abbreviation Heap := (list Arr) (only parsing).
Notation "x <- m ;; k" := (bind m (fun x => k))
  (at level 100, m at next level, right associativity).

(** ** The result in closed form *)

(** What a run of [extractTipState] returns, read off the contents [ts] of
    the contribution array and [la] of the account array.  These
    definitions only serve the proofs: [extractTipState_run] below shows
    that the run computes them. *)
Definition median_sorted (vs : list Z) : Z :=
  let len := Z.of_nat (length vs) in
  if len =? 0 then 0
  else if Z.rem len 2 =? 0
       then (nth (Z.to_nat (len / 2 - 1)) vs 0 + nth (Z.to_nat (len / 2)) vs 0) ÷ 2
       else nth (Z.to_nat (len / 2)) vs 0.

Definition finder_deposit {AccountId Hash} (tip : @Tip AccountId Hash)
  : option AccountId * option Balance :=
  match tip with
  | Current t => (Some (ot_finder t), Some (ot_deposit t))
  | Legacy t =>
      match lt_finder t with
      | Some (f, d) => (Some f, Some d)
      | None => (None, None)
      end
  end.

Definition run_state {AccountId Hash} (toString : AccountId -> string)
  (tip : @Tip AccountId Hash) (ts : list (AccountId * Balance))
  (la : list string) : TipState :=
  {| closesAt := closes tip;
     deposit := snd (finder_deposit tip);
     finder := fst (finder_deposit tip);
     isFinder := match fst (finder_deposit tip) with
                 | Some f => includes la (toString f)
                 | None => false
                 end;
     isTipped := match ts with [] => false | _ :: _ => true end;
     isTipper := existsb (fun c => includes la (toString (fst c))) ts;
     median := median_sorted (js_sort BN.cmp (map snd ts)) |}.

(** ** Sample records *)

Module Sample.
Definition alice : string := "5Alice".
Definition bob : string := "5Bob".
Definition carol : string := "5Carol".

Definition contributions : list (string * Balance) :=
  [(alice, 30); (bob, 10); (carol, 20)].
Definition reordered : list (string * Balance) :=
  [(carol, 10); (carol, 20); (alice, 30)].
Definition accounts : list string := [bob].

(** Location 0 holds the contributions, 1 the local accounts, 2 a second
    contribution array with the same amounts. *)
Definition heap : list (@Arr string) :=
  [ArrTips contributions; ArrStr accounts; ArrTips reordered].

Definition open_tip : @OpenTip string string :=
  {| ot_reason := "0xreason"%string; ot_who := carol; ot_finder := bob;
     ot_deposit := 5; ot_closes := Some 100; ot_tips := 0%nat;
     ot_findersFee := false |}.

Definition current : @Tip string string := Current open_tip.

Definition legacy : @Tip string string :=
  Legacy {| lt_reason := "0xreason"%string; lt_who := carol;
            lt_finder := Some (alice, 7); lt_closes := None;
            lt_tips := 2%nat |}.

(** A legacy record without finder, its contributions at location 0. *)
Definition anonymous : @Tip string string :=
  Legacy {| lt_reason := "0xreason"%string; lt_who := carol;
            lt_finder := None; lt_closes := None; lt_tips := 0%nat |}.

Definition address (a : string) : string := a.
End Sample.

(** * The tip row *)

(** The rest of [Tip.tsx]: what one render of the [Tip] component computes
    from its props, the state of its hooks and the heap. *)

(** [a.gt(b)] is [a.cmp(b) === 1]; [a.sub(b)] the exact difference. *)
Definition BN_gt (a b : BN.t) : bool := BN.cmp a b =? 1.
Definition BN_sub (a b : BN.t) : BN.t := a - b.

(** [ToBoolean] of a string: false exactly on the empty string.  A string
    stands for the sequence of its code units, which is what [length]
    counts in JavaScript. *)
Definition truthy_string (s : string) : bool :=
  negb (Nat.eqb (String.length s) 0).

(** [x || null] for [x : string | undefined]. *)
Definition or_null (x : option string) : option string :=
  match x with
  | Some s => if truthy_string s then Some s else None
  | None => None
  end.

Section TipRow.

Context {AccountId Hash : Type}.
Variable toString : AccountId -> string.

(** The props the component reads.  [className] only styles the row, and
    the two callbacks are represented by the calls made to them. *)
Record Props := {
  p_bestNumber : option BlockNumber;
  p_defaultId : option string;
  p_hash : string;
  p_isMember : bool;
  p_members : loc;
  p_onlyUntipped : bool;
  p_tip : @Tip AccountId Hash
}.

Definition who (tip : @Tip AccountId Hash) : AccountId :=
  match tip with
  | Current t => ot_who t
  | Legacy t => lt_who t
  end.

Definition reason (tip : @Tip AccountId Hash) : Hash :=
  match tip with
  | Current t => ot_reason t
  | Legacy t => lt_reason t
  end.

(** The cell under the closing column: the countdown, the finder's cancel
    button, or nothing. *)
Inductive Action :=
| ClosingTimer (value : BN.t) (number : BlockNumber)
| CancelButton (accountId : AccountId)
| NoAction.

(** The cell with the endorsement form or the close button. *)
Inductive Button :=
| TipEndorse (defaultId : option string) (hash : string)
    (isMember isTipped : bool) (median : BN.t) (members : loc)
| CloseButton (accountId : option string) (hash : string).

Inductive Color := green | gray.

Record Row := {
  r_who : AccountId;
  r_finder : option AccountId;
  r_reason : Hash;
  r_tippers : option (Z * BN.t * list (AccountId * Balance));
  r_action : Action;
  r_button : Button;
  r_badge : option Color;
  r_checkboxDisabled : bool;
  r_checkboxValue : bool;
  r_link : string
}.

(** One render: the arguments of the two effects and the element. *)
Record Rendered := {
  onSelect_call : string * bool * BN.t;
  setMedianTip_call : bool;
  element : option Row
}.

(** [Array.prototype.find] on a [string[]]. *)
Fixpoint find_loop (f : string -> @M AccountId bool)
    (l : list string) : @M AccountId (option string) :=
  match l with
  | [] => ret None
  | x :: r => b <- f x ;; if b then ret (Some x) else find_loop f r
  end.

Definition find_str (f : string -> @M AccountId bool) (l : loc)
  : @M AccountId (option string) :=
  fun h =>
    match h !! l with
    | Some (ArrStr ss) => find_loop f ss h
    | Some _ => inl EType
    | None => inl EDangling
    end.

Definition length_tips (l : loc) : @M AccountId Z :=
  fun h =>
    match h !! l with
    | Some (ArrTips ts) => inr (Z.of_nat (length ts), h)
    | Some _ => inl EType
    | None => inl EDangling
    end.

(** [tips.map (([tipper, balance]) => <AddressMini ... />)]: the children
    of the expander, one per contribution and in their order. *)
Definition tippers_of (l : loc) : @M AccountId (list (AccountId * Balance)) :=
  fun h =>
    match h !! l with
    | Some (ArrTips ts) => inr (map (fun c => (fst c, snd c)) ts, h)
    | Some _ => inl EType
    | None => inl EDangling
    end.

Definition TipRow (p : Props) (isMedianSelected : bool) (allAccounts : loc)
  : @M AccountId Rendered :=
  st <- extractTipState toString (p_tip p) allAccounts ;;
  found <- find_str (fun accountId => includes_str (p_members p) accountId)
             allAccounts ;;
  let councilId := or_null found in
  let onSelect_call := (p_hash p, isMedianSelected, median st) in
  let setMedianTip_call := p_isMember p && negb (isTipper st) in
  if p_onlyUntipped p && negb (truthy_ref (closesAt st)) && isTipper st
  then ret {| onSelect_call := onSelect_call;
              setMedianTip_call := setMedianTip_call;
              element := None |}
  else
    let tips := tips (p_tip p) in
    len <- length_tips tips ;;
    tippers <- (if negb (len =? 0)
                then len' <- length_tips tips ;;
                     children <- tippers_of tips ;;
                     ret (Some (len', median st, children))
                else ret None) ;;
    let action :=
      match closesAt st with
      | Some closesAt =>
          match p_bestNumber p with
          | Some bestNumber =>
              if BN_gt closesAt bestNumber
              then ClosingTimer (BN_sub closesAt bestNumber) closesAt
              else NoAction
          | None => NoAction
          end
      | None =>
          match finder st with
          | Some finder =>
              if isFinder st then CancelButton finder else NoAction
          | None => NoAction
          end
      end in
    let button :=
      if match closesAt st, p_bestNumber p with
         | None, _ => true
         | Some _, None => true
         | Some closesAt, Some bestNumber => BN_gt closesAt bestNumber
         end
      then TipEndorse (p_defaultId p) (p_hash p) (p_isMember p)
             (isTipped st) (median st) (p_members p)
      else CloseButton councilId (p_hash p) in
    ret {| onSelect_call := onSelect_call;
           setMedianTip_call := setMedianTip_call;
           element :=
             Some {| r_who := who (p_tip p);
                     r_finder := finder st;
                     r_reason := reason (p_tip p);
                     r_tippers := tippers;
                     r_action := action;
                     r_button := button;
                     r_badge := if p_isMember p
                                then Some (if isTipper st then green else gray)
                                else None;
                     r_checkboxDisabled := negb (p_isMember p);
                     r_checkboxValue := isMedianSelected;
                     r_link := p_hash p |} |}.

End TipRow.

(** * Asset metadata form *)

(** [a.lten(n)]: [a] is at most the small number [n]. *)
Definition BN_lten (a : BN.t) (n : Z) : bool := a <=? n.

(** The extrinsic built by [api.tx.assets.setMetadata]. *)
Inductive Tx :=
| setMetadata (assetId : BN.t) (name symbol : string) (decimals : BN.t).

Record MetadataState := { metadataTx : Tx }.

Definition isValidDecimals (assetDecimals : option BN.t) : bool :=
  match assetDecimals with
  | Some d => BN_lten d 20
  | None => false
  end.

Definition isValidName (assetName : option string) : bool :=
  match assetName with
  | Some s =>
      truthy_string s
      && (3 <=? String.length s)%nat && (String.length s <=? 32)%nat
  | None => false
  end.

Definition isValidSymbol (assetSymbol : option string) : bool :=
  match assetSymbol with
  | Some s => truthy_string s && (3 <=? String.length s)%nat
  | None => false
  end.

(** The argument of [onChange] in the effect of [Metadata].  An absent
    [assetId] is [undefined] or [null]; a number object is truthy, zero
    included. *)
Definition Metadata_onChange (assetId : option BN.t)
    (assetName assetSymbol : option string) (assetDecimals : option BN.t)
  : option MetadataState :=
  match assetId, assetName, assetSymbol, assetDecimals with
  | Some id, Some name, Some symbol, Some decimals =>
      if truthy_string name && truthy_string symbol
         && isValidName assetName && isValidSymbol assetSymbol
         && isValidDecimals assetDecimals
      then Some {| metadataTx := setMetadata id name symbol decimals |}
      else None
  | _, _, _, _ => None
  end.

(** * Asset infos *)

Section Assets.

(** The chain's types are used through the fields and methods the source
    reads. *)
Context {AccountId AssetId AssetDetails AssetMetadata : Type}.
Variable toString : AccountId -> string.
Variable idToString : AssetId -> string.
Variables admin freezer issuer owner : AssetDetails -> AccountId.
Variable isEmpty : AssetMetadata -> bool.

Definition isAccount (allAccounts : list string) (accountId : AccountId)
  : bool :=
  let address := toString accountId in
  existsb (fun a => String.eqb a address) allAccounts.

Record AssetInfo := {
  ai_details : option AssetDetails;
  ai_id : AssetId;
  ai_isAdmin : bool;
  ai_isFreezer : bool;
  ai_isIssuer : bool;
  ai_isOwner : bool;
  ai_key : string;
  ai_metadata : option AssetMetadata
}.

(** [!!details && isAccount (allAccounts, details.role)]. *)
Definition has_role (allAccounts : list string)
    (details : option AssetDetails) (role : AssetDetails -> AccountId)
  : bool :=
  match details with
  | Some d => isAccount allAccounts (role d)
  | None => false
  end.

Definition extractInfo (allAccounts : list string) (id : AssetId)
    (optDetails : option AssetDetails) (metadata : AssetMetadata)
  : AssetInfo :=
  let details := unwrapOr optDetails None in
  {| ai_details := details;
     ai_id := id;
     ai_isAdmin := has_role allAccounts details admin;
     ai_isFreezer := has_role allAccounts details freezer;
     ai_isIssuer := has_role allAccounts details issuer;
     ai_isOwner := has_role allAccounts details owner;
     ai_key := idToString id;
     ai_metadata := if isEmpty metadata then None else Some metadata |}.

(** [arr[index]] passed on as an object: outside the array it is
    [undefined], on which the callee's first method call throws. *)
Definition at_index {A} (l : list A) (index : nat) : Error + A :=
  match l !! index with
  | Some x => inr x
  | None => inl EUndefined
  end.

(** [arr.map ((x, index) => f)] with a callback that can throw. *)
Fixpoint map_index {A B} (f : A -> nat -> Error + B) (l : list A)
    (index : nat) : Error + list B :=
  match l with
  | [] => inr []
  | x :: r =>
      match f x index with
      | inl e => inl e
      | inr y =>
          match map_index f r (S index) with
          | inl e => inl e
          | inr ys => inr (y :: ys)
          end
      end
  end.

(** The value memoised by [useAssetInfos]; the two query results are
    [undefined] until they arrive.  [None] is [undefined]. *)
Definition useAssetInfos (allAccounts : list string)
    (ids : option (list AssetId))
    (allDetails : option (list (option AssetDetails)))
    (allMetadata : option (list AssetMetadata))
  : Error + option (list AssetInfo) :=
  match allDetails, allMetadata, ids with
  | Some details, Some metadatas, Some ids =>
      if (length details =? length ids)%nat
         && (length metadatas =? length ids)%nat
      then match map_index
                   (fun id index =>
                      match at_index details index with
                      | inl e => inl e
                      | inr d =>
                          match at_index metadatas index with
                          | inl e => inl e
                          | inr m => inr (extractInfo allAccounts id d m)
                          end
                      end) ids 0%nat with
           | inl e => inl e
           | inr infos => inr (Some infos)
           end
      else inr None
  | _, _, _ => inr None
  end.

End Assets.

(** * Tabs *)

(** [s.split (sep)] for a separator of one character. *)
Fixpoint split (sep : ascii) (s : string) : list string :=
  match s with
  | EmptyString => [EmptyString]
  | String c r =>
      if Ascii.eqb c sep then EmptyString :: split sep r
      else match split sep r with
           | [] => [String c EmptyString]
           | segment :: segments => String c segment :: segments
           end
  end.

(** The fields of a tab that [Tabs] reads; [alias] and [isRoot] are
    optional. *)
Record TabItem := {
  tab_alias : option string;
  tab_isRoot : option bool;
  tab_name : string
}.

(** An entry of [hidden : (string | boolean | undefined)[]]. *)
Inductive HiddenEntry :=
| HString (s : string)
| HBoolean (b : bool)
| HUndefined.

(** [===] between values that are a string or [undefined]. *)
Definition strict_equal (a b : option string) : bool :=
  match a, b with
  | Some x, Some y => String.eqb x y
  | None, None => true
  | _, _ => false
  end.

(** [SameValueZero] of an entry against a string or [undefined]. *)
Definition same_value_zero (e : HiddenEntry) (v : option string) : bool :=
  match e, v with
  | HString s, Some s' => String.eqb s s'
  | HUndefined, None => true
  | _, _ => false
  end.

Definition hidden_includes (hidden : list HiddenEntry) (v : option string)
  : bool :=
  existsb (fun e => same_value_zero e v) hidden.

Definition truthy_flag (b : option bool) : bool :=
  match b with
  | Some b => b
  | None => false
  end.

(** The third element of [pathname.split ('/')], [undefined] when there are
    fewer. *)
Definition section_of (pathname : string) : option string :=
  split "/" pathname !! 2%nat.

(** The effect of [Tabs]: the value assigned to [window.location.hash], if
    one is. *)
Definition Tabs_redirect (pathname basePath : string)
    (hidden : option (list HiddenEntry)) (items : list TabItem)
  : option string :=
  if negb (String.eqb pathname basePath)
  then
    let section := section_of pathname in
    let alias :=
      List.find (fun item => strict_equal (tab_alias item) section) items in
    match alias with
    | Some alias =>
        Some (if truthy_flag (tab_isRoot alias)
              then basePath
              else (basePath ++ "/" ++ tab_name alias)%string)
    | None =>
        match hidden with
        | Some hidden =>
            if hidden_includes hidden section
               || negb (existsb
                          (fun item =>
                             negb (truthy_flag (tab_isRoot item))
                             && strict_equal (Some (tab_name item)) section)
                          items)
            then Some basePath
            else None
        | None => None
        end
    end
  else None.

(** The tabs that are displayed. *)
Definition Tabs_filtered (hidden : option (list HiddenEntry))
    (items : list TabItem) : list TabItem :=
  match hidden with
  | Some hidden =>
      List.filter
        (fun item => negb (hidden_includes hidden (Some (tab_name item))))
        items
  | None => items
  end.

(** Whether a character occurs in a string. *)
Fixpoint has_char (c : ascii) (s : string) : bool :=
  match s with
  | EmptyString => false
  | String c' r => Ascii.eqb c' c || has_char c r
  end.

(** ** Sample forms, assets and tabs *)

Module Demo.
Definition overview : TabItem :=
  {| tab_alias := None; tab_isRoot := Some true; tab_name := "overview" |}.
Definition payouts : TabItem :=
  {| tab_alias := Some "rewards"%string; tab_isRoot := None;
     tab_name := "payouts" |}.
Definition slashes : TabItem :=
  {| tab_alias := Some "old"%string; tab_isRoot := Some false;
     tab_name := "slashes" |}.
Definition items : list TabItem := [overview; payouts; slashes].
Definition hidden : list HiddenEntry :=
  [HBoolean false; HString "slashes"; HUndefined].

(** An asset's details, reduced to its four roles. *)
Definition roles : Type := string * string * string * string.
Definition admin (d : roles) : string := fst (fst (fst d)).
Definition freezer (d : roles) : string := snd (fst (fst d)).
Definition issuer (d : roles) : string := snd (fst d).
Definition owner (d : roles) : string := snd d.
Definition address (a : string) : string := a.
Definition isEmpty (m : string) : bool := Nat.eqb (String.length m) 0.
Definition show (n : nat) : string :=
  match n with
  | 0%nat => "0"
  | 1%nat => "1"
  | _ => "n"
  end.

(** Location 0 holds the contributions, 1 the local accounts, 2 the
    council members. *)
Definition heap : list (@Arr string) :=
  [ArrTips [("5Alice"%string, 30); ("5Bob"%string, 10)];
   ArrStr ["5Dave"%string; "5Carol"%string];
   ArrStr ["5Erin"%string; "5Carol"%string]].

Definition closing : @Tip string string :=
  Current {| ot_reason := "0xreason"%string; ot_who := "5Bob"%string;
             ot_finder := "5Carol"%string; ot_deposit := 5;
             ot_closes := Some 100; ot_tips := 0%nat;
             ot_findersFee := true |}.

Definition open : @Tip string string :=
  Current {| ot_reason := "0xreason"%string; ot_who := "5Bob"%string;
             ot_finder := "5Carol"%string; ot_deposit := 5;
             ot_closes := None; ot_tips := 0%nat;
             ot_findersFee := true |}.

Definition props (tip : @Tip string string) (bestNumber : option Z)
  : @Props string string :=
  {| p_bestNumber := bestNumber; p_defaultId := None; p_hash := "0xtip";
     p_isMember := true; p_members := 2%nat; p_onlyUntipped := true;
     p_tip := tip |}.

(** The closing block 100 seen from block 120, from block 90, and a tip
    that is not closing. *)
Definition reached : @Props string string := props closing (Some 120).
Definition waiting : @Props string string := props closing (Some 90).
Definition unclosed : @Props string string := props open None.

Definition assets : list nat := [0%nat; 1%nat].
Definition asset_details : list (option roles) :=
  [Some ("5Carol"%string, "5Bob"%string, "5Bob"%string, "5Dave"%string);
   None].
Definition asset_metadata : list string := ["gold"%string; ""%string].
Definition local_accounts : list string :=
  ["5Dave"%string; "5Carol"%string].
End Demo.

(** * Properties *)

(** ** The comparator and the sort *)

Lemma cmp_le_iff (a b : Z) : (BN.cmp a b <=? 0) = true <-> a <= b.
Proof.
  unfold BN.cmp. rewrite Z.leb_le.
  destruct (Z.compare_spec a b); lia.
Qed.

Lemma insert_by_Permutation {A} (cmp : A -> A -> Z) x l :
  insert_by cmp x l ≡ₚ x :: l.
Proof.
  induction l as [|y r IH]; simpl; [done|].
  destruct (cmp x y <=? 0); [done|].
  rewrite IH. apply perm_swap.
Qed.

Lemma js_sort_Permutation {A} (cmp : A -> A -> Z) l : js_sort cmp l ≡ₚ l.
Proof.
  induction l as [|x r IH]; simpl; [done|].
  by rewrite insert_by_Permutation, IH.
Qed.

Lemma js_sort_length {A} (cmp : A -> A -> Z) l :
  length (js_sort cmp l) = length l.
Proof. apply Permutation_length, js_sort_Permutation. Qed.

Lemma insert_by_Sorted x l :
  Sorted Z.le l -> Sorted Z.le (insert_by BN.cmp x l).
Proof.
  induction 1 as [|y r Hr IH Hhd]; simpl.
  - repeat constructor.
  - destruct (BN.cmp x y <=? 0) eqn:E.
    + apply cmp_le_iff in E. repeat constructor; auto.
    + assert (y <= x).
      { destruct (Z.le_gt_cases x y) as [Hle|]; [|lia].
        apply cmp_le_iff in Hle. congruence. }
      constructor; [done|].
      destruct Hhd as [|z r' Hz]; simpl.
      * by constructor.
      * destruct (BN.cmp x z <=? 0); by constructor.
Qed.

Lemma js_sort_Sorted l : Sorted Z.le (js_sort BN.cmp l).
Proof.
  induction l; simpl; [constructor|]. by apply insert_by_Sorted.
Qed.

(** Any ascending arrangement of the same numbers is the array the sort
    leaves behind. *)
Lemma js_sort_unique v l :
  Sorted Z.le v -> v ≡ₚ l -> js_sort BN.cmp l = v.
Proof.
  intros Hs Hp. apply (Sorted_unique Z.le).
  - apply js_sort_Sorted.
  - done.
  - by rewrite js_sort_Permutation, Hp.
Qed.

Lemma includes_In la s : includes la s = true <-> In s la.
Proof.
  induction la as [|x r IH]; simpl; [split; [discriminate|tauto]|].
  destruct (String.eqb_spec x s); [tauto|].
  rewrite IH. split; [tauto|]. intros [?|?]; [done|tauto].
Qed.

Section Facts.

Context {AccountId Hash : Type} (toString : AccountId -> string).
Implicit Types (h : list (@Arr AccountId)) (tip : @Tip AccountId Hash).
Implicit Types (ts : list (AccountId * Balance)) (la : list string).
Implicit Types (vs : list Z) (l : loc).

(** ** Running the heap operations *)

Lemma bind_run {A B} (m : M A) (f : A -> M B) h a h' :
  m h = inr (a, h') -> bind m f h = f a h'.
Proof. unfold bind. by intros ->. Qed.

Lemma map_tips_run f l h ts :
  h !! l = Some (ArrTips ts) ->
  map_tips f l h = inr (length h, h ++ [ArrBN (map f ts)]).
Proof. unfold map_tips. by intros ->. Qed.

(** Sorting the array that was just allocated touches that array only. *)
Lemma sort_bn_fresh_run cmp h vs :
  sort_bn cmp (length h) (h ++ [ArrBN vs])
  = inr (length h, h ++ [ArrBN (js_sort cmp vs)]).
Proof.
  unfold sort_bn. rewrite list_lookup_middle by done.
  do 2 f_equal.
  rewrite <- (Nat.add_0_r (length h)) at 1.
  by rewrite insert_app_r.
Qed.

Lemma length_bn_run l h vs :
  h !! l = Some (ArrBN vs) -> length_bn l h = inr (Z.of_nat (length vs), h).
Proof. unfold length_bn. by intros ->. Qed.

Lemma get_bn_run l h vs i :
  h !! l = Some (ArrBN vs) ->
  0 <= i < Z.of_nat (length vs) ->
  get_bn l i h = inr (nth (Z.to_nat i) vs 0, h).
Proof.
  intros Hl Hi. unfold get_bn. rewrite Hl.
  destruct (Z.ltb_spec i 0); [lia|].
  destruct (lookup_lt_is_Some_2 vs (Z.to_nat i)) as [v Hv]; [lia|].
  rewrite Hv. by rewrite (nth_lookup_Some _ _ _ _ Hv).
Qed.

Lemma includes_str_run l h la s :
  h !! l = Some (ArrStr la) -> includes_str l s h = inr (includes la s, h).
Proof. unfold includes_str. by intros ->. Qed.

Lemma some_loop_run {A} (f : A -> M bool) (g : A -> bool) h (xs : list A) :
  (forall x, f x h = inr (g x, h)) ->
  some_loop f xs h = inr (existsb g xs, h).
Proof.
  intros Hf. induction xs as [|x r IH]; simpl; [done|].
  rewrite (bind_run _ _ _ _ _ (Hf x)).
  by destruct (g x).
Qed.

Lemma some_tips_run f g l h ts :
  h !! l = Some (ArrTips ts) ->
  (forall c, f c h = inr (g c, h)) ->
  some_tips f l h = inr (existsb g ts, h).
Proof.
  intros Hl Hf. unfold some_tips. rewrite Hl. by apply some_loop_run.
Qed.

(** The type guard is sound: after the test on [findersFee] the record is
    read as the shape it has, and the finder and deposit are found. *)
Lemma finder_block_run tip h :
  (if isCurrentTip tip
   then t <- as_OpenTip tip ;;
        ret (Some (ot_finder t), Some (ot_deposit t))
   else t <- as_OpenTipTo225 tip ;;
        if isSome (lt_finder t)
        then finderInfo <- unwrap (lt_finder t) ;;
             ret (Some (fst finderInfo), Some (snd finderInfo))
        else ret (None, None)) h
  = inr (finder_deposit tip, h).
Proof.
  destruct tip as [t|t]; simpl; [done|].
  unfold bind; simpl. by destruct (lt_finder t) as [[f d]|].
Qed.

(** Every index the median reads lies inside the sorted array. *)
Lemma median_block_run (values : loc) h vs :
  h !! values = Some (ArrBN vs) ->
  let len := Z.of_nat (length vs) in
  let midIndex := Math_floor_div len 2 in
  (if truthy_number len
   then if truthy_number (js_rem len 2)
        then get_bn values midIndex
        else lo <- get_bn values (midIndex - 1) ;;
             hi <- get_bn values midIndex ;;
             ret (BN.divn (BN.add lo hi) 2)
   else ret BN_ZERO) h
  = inr (median_sorted vs, h).
Proof.
  intros Hl len midIndex. unfold median_sorted. fold len.
  unfold truthy_number, js_rem, Math_floor_div in *.
  destruct (Z.eqb_spec len 0) as [|Hne]; simpl; [done|].
  assert (0 < len) by lia.
  assert (0 <= midIndex < len).
  { subst midIndex. split; [apply Z.div_pos; lia|].
    apply Z.div_lt_upper_bound; lia. }
  destruct (Z.eqb_spec (Z.rem len 2) 0) as [Hev|Hodd]; simpl.
  - assert (2 <= len).
    { destruct (Z.eq_dec len 1) as [E|]; [|lia].
      rewrite E in Hev. discriminate. }
    assert (1 <= midIndex).
    { subst midIndex. apply Z.div_le_lower_bound; lia. }
    rewrite (bind_run _ _ _ _ _ (get_bn_run _ _ _ (midIndex - 1) Hl ltac:(lia))).
    by rewrite (bind_run _ _ _ _ _ (get_bn_run _ _ _ midIndex Hl ltac:(lia))).
  - by apply get_bn_run.
Qed.

(** A run of [extractTipState] on a heap that holds the contributions and
    the accounts: it returns, with the closed form as its value, and the
    heap has grown by the sorted copy of the amounts. *)
Lemma extractTipState_run tip (allAccounts : loc) h ts la :
  h !! tips tip = Some (ArrTips ts) ->
  h !! allAccounts = Some (ArrStr la) ->
  extractTipState toString tip allAccounts h
  = inr (run_state toString tip ts la,
         h ++ [ArrBN (js_sort BN.cmp (map snd ts))]).
Proof.
  intros Hts Hla. unfold extractTipState.
  rewrite (bind_run _ _ _ _ _ (finder_block_run tip h)).
  rewrite (bind_run _ _ _ _ _ (map_tips_run snd _ _ _ Hts)).
  rewrite (bind_run _ _ _ _ _ (sort_bn_fresh_run BN.cmp h _)).
  set (vs := js_sort BN.cmp (map snd ts)).
  set (h1 := h ++ [ArrBN vs]).
  assert (Hvs : h1 !! length h = Some (ArrBN vs))
    by (by apply list_lookup_middle).
  assert (Hts1 : h1 !! tips tip = Some (ArrTips ts))
    by (by apply lookup_app_l_Some).
  assert (Hla1 : h1 !! allAccounts = Some (ArrStr la))
    by (by apply lookup_app_l_Some).
  rewrite (bind_run _ _ _ _ _ (length_bn_run _ _ _ Hvs)).
  rewrite (bind_run _ _ _ _ _ (median_block_run _ _ _ Hvs)).
  assert (Hfinder :
    match fst (finder_deposit tip) with
    | Some f => includes_str allAccounts (toString f)
    | None => ret (truthy_ref (fst (finder_deposit tip)))
    end h1
    = inr (match fst (finder_deposit tip) with
           | Some f => includes la (toString f)
           | None => false
           end, h1)).
  { destruct (fst (finder_deposit tip)); [by apply includes_str_run|done]. }
  rewrite (bind_run _ _ _ _ _ Hfinder).
  rewrite (bind_run _ _ _ _ _ (length_bn_run _ _ _ Hvs)).
  rewrite (bind_run _ _ _ _ _
             (some_tips_run _ (fun c => includes la (toString (fst c)))
                _ _ _ Hts1 (fun c => includes_str_run _ _ _ _ Hla1))).
  unfold ret, run_state. do 3 f_equal.
  - by destruct (closes tip).
  - subst vs. rewrite js_sort_length, length_map.
    by destruct ts.
Qed.

(** ** The median in closed form against the standard median *)

Lemma nth_nonneg vs i : Forall (fun v => 0 <= v) vs -> 0 <= nth i vs 0.
Proof.
  intros Hvs. destruct (nth_in_or_default i vs 0) as [Hin| ->]; [|lia].
  rewrite Forall_forall in Hvs. apply Hvs. by apply list_elem_of_In.
Qed.

Lemma median_sorted_standard vs :
  vs <> [] -> Forall (fun v => 0 <= v) vs ->
  median_sorted vs = standard_median vs.
Proof.
  intros Hne Hvs. unfold median_sorted, standard_median.
  set (n := length vs).
  assert (0 < n)%nat by (subst n; destruct vs; simpl; [done|lia]).
  destruct (Z.eqb_spec (Z.of_nat n) 0); [lia|].
  destruct (Nat.Even_or_Odd n) as [[k Hk]|[k Hk]].
  - assert (Nat.odd n = false) as ->.
    { rewrite <- Nat.negb_even. apply negb_false_iff, Nat.even_spec. by exists k. }
    assert (Z.rem (Z.of_nat n) 2 = 0) as ->.
    { rewrite Z.rem_mod_nonneg by lia. rewrite Hk, Nat2Z.inj_mul.
      rewrite Z.mul_comm. apply Z_mod_mult. }
    cbn [Z.eqb].
    assert (n / 2 = k)%nat as ->
      by (rewrite Hk, Nat.mul_comm; apply Nat.div_mul; lia).
    assert (Z.of_nat n / 2 = Z.of_nat k) as ->.
    { rewrite Hk, Nat2Z.inj_mul, Z.mul_comm. apply Z_div_mult. lia. }
    replace (Z.to_nat (Z.of_nat k - 1)) with (k - 1)%nat by lia.
    rewrite Nat2Z.id. apply Z.quot_div_nonneg; [|lia].
    pose proof (nth_nonneg vs (k - 1) Hvs). pose proof (nth_nonneg vs k Hvs).
    lia.
  - assert (Nat.odd n = true) as -> by (apply Nat.odd_spec; by exists k).
    assert (Z.of_nat n / 2 = Z.of_nat k) as HZ.
    { symmetry. apply (Z.div_unique _ _ _ 1); lia. }
    assert (Z.rem (Z.of_nat n) 2 = 1) as ->.
    { rewrite Z.rem_mod_nonneg by lia. symmetry.
      apply (Z.mod_unique _ _ (Z.of_nat k)); lia. }
    cbn [Z.eqb Pos.eqb negb]. rewrite HZ, Nat2Z.id.
    assert (n / 2 = k)%nat as ->; [|done].
    symmetry. apply (Nat.div_unique _ _ _ 1); lia.
Qed.

(** ** The claims *)

(** C1. On a record with at least one contribution, the median returned by
    [extractTipState] is the standard median of the amounts: for [v] any
    ascending arrangement of the amounts, [v[n/2]] when their number [n] is
    odd and the floor of [(v[n/2 - 1] + v[n/2]) / 2] when it is even,
    computed on unbounded integers. *)
Theorem median_is_standard_median tip (allAccounts : loc) h ts la v :
  h !! tips tip = Some (ArrTips ts) ->
  h !! allAccounts = Some (ArrStr la) ->
  ts <> [] ->
  Forall is_Balance (map snd ts) ->
  Sorted Z.le v ->
  v ≡ₚ map snd ts ->
  exists st h',
    extractTipState toString tip allAccounts h = inr (st, h')
    /\ median st = standard_median v.
Proof.
  intros Hts Hla Hne Hbal Hsorted Hperm.
  eexists _, _. split; [by apply extractTipState_run|]. simpl.
  rewrite (js_sort_unique v _ Hsorted Hperm).
  apply median_sorted_standard.
  - intros ->. apply Permutation_nil in Hperm. by destruct ts.
  - rewrite Hperm. eapply Forall_impl; [exact Hbal|].
    unfold is_Balance. simpl. lia.
Qed.

(** C2. The finder and the deposit of the returned state are the dedicated
    fields of a record of the current shape, the two components of the
    optional pair of a legacy record that has one, and both null on a
    legacy record without a finder. *)
Theorem finder_and_deposit_extracted tip (allAccounts : loc) h ts la :
  h !! tips tip = Some (ArrTips ts) ->
  h !! allAccounts = Some (ArrStr la) ->
  exists st h',
    extractTipState toString tip allAccounts h = inr (st, h')
    /\ match tip with
       | Current t =>
           finder st = Some (ot_finder t) /\ deposit st = Some (ot_deposit t)
       | Legacy t =>
           match lt_finder t with
           | Some (f, d) => finder st = Some f /\ deposit st = Some d
           | None => finder st = None /\ deposit st = None
           end
       end.
Proof.
  intros Hts Hla.
  eexists _, _. split; [by apply extractTipState_run|]. simpl.
  destruct tip as [t|t]; simpl; [done|].
  by destruct (lt_finder t) as [[f d]|].
Qed.

(** C3. [isFinder] holds exactly when the extracted finder is not null and
    its address is one of the local accounts; with a null finder it is
    false. *)
Theorem isFinder_iff tip (allAccounts : loc) h ts la :
  h !! tips tip = Some (ArrTips ts) ->
  h !! allAccounts = Some (ArrStr la) ->
  exists st h',
    extractTipState toString tip allAccounts h = inr (st, h')
    /\ (isFinder st = true <->
        exists f, finder st = Some f /\ In (toString f) la)
    /\ (finder st = None -> isFinder st = false).
Proof.
  intros Hts Hla.
  eexists _, _. split; [by apply extractTipState_run|]. simpl.
  destruct (fst (finder_deposit tip)) as [f|]; split.
  - rewrite includes_In. split.
    + intros Hin. by exists f.
    + intros (f' & [= <-] & Hin). done.
  - discriminate.
  - split; [discriminate|]. by intros (f & ? & _).
  - done.
Qed.

(** C4. [isTipper] holds exactly when some contribution of the record was
    made by an account whose address is one of the local accounts. *)
Theorem isTipper_iff tip (allAccounts : loc) h ts la :
  h !! tips tip = Some (ArrTips ts) ->
  h !! allAccounts = Some (ArrStr la) ->
  exists st h',
    extractTipState toString tip allAccounts h = inr (st, h')
    /\ (isTipper st = true <->
        exists account value,
          In (account, value) ts /\ In (toString account) la).
Proof.
  intros Hts Hla.
  eexists _, _. split; [by apply extractTipState_run|]. simpl.
  rewrite existsb_exists. split.
  - intros ([a v] & Hin & Hinc). exists a, v.
    by rewrite <- includes_In.
  - intros (a & v & Hin & Hinc). exists (a, v).
    by rewrite includes_In.
Qed.

(** C5. [isTipped] holds exactly when the record has a contribution, and
    the median of a record without contributions is zero. *)
Theorem isTipped_iff_and_empty_median tip (allAccounts : loc) h ts la :
  h !! tips tip = Some (ArrTips ts) ->
  h !! allAccounts = Some (ArrStr la) ->
  exists st h',
    extractTipState toString tip allAccounts h = inr (st, h')
    /\ (isTipped st = true <-> ts <> [])
    /\ (ts = [] -> median st = 0).
Proof.
  intros Hts Hla.
  eexists _, _. split; [by apply extractTipState_run|]. simpl.
  destruct ts; simpl; split; try done.
Qed.

(** C6. The median depends on the multiset of amounts only: two records,
    of either shape and with any contributors, whose amounts are the same
    up to order have the same median. *)
Theorem median_depends_on_amounts_only
    tip1 tip2 (accounts1 accounts2 : loc) h1 h2 ts1 ts2 la1 la2 :
  h1 !! tips tip1 = Some (ArrTips ts1) ->
  h1 !! accounts1 = Some (ArrStr la1) ->
  h2 !! tips tip2 = Some (ArrTips ts2) ->
  h2 !! accounts2 = Some (ArrStr la2) ->
  map snd ts1 ≡ₚ map snd ts2 ->
  exists st1 h1' st2 h2',
    extractTipState toString tip1 accounts1 h1 = inr (st1, h1')
    /\ extractTipState toString tip2 accounts2 h2 = inr (st2, h2')
    /\ median st1 = median st2.
Proof.
  intros Hts1 Hla1 Hts2 Hla2 Hperm.
  eexists _, _, _, _.
  split; [by apply extractTipState_run|].
  split; [by apply extractTipState_run|]. simpl.
  f_equal. apply js_sort_unique; [apply js_sort_Sorted|].
  by rewrite js_sort_Permutation.
Qed.

(** C7. [extractTipState] is a function of the record and the accounts:
    runs on heaps that hold the same contributions and the same accounts
    return the same state, and a run changes no object that existed before
    it.  The heap only grows by one array, the sorted copy of the amounts;
    the contributions keep their order and the accounts are as before. *)
Theorem extractTipState_pure
    tip (accounts1 accounts2 : loc) h1 h2 ts la :
  h1 !! tips tip = Some (ArrTips ts) ->
  h1 !! accounts1 = Some (ArrStr la) ->
  h2 !! tips tip = Some (ArrTips ts) ->
  h2 !! accounts2 = Some (ArrStr la) ->
  exists st fresh1 fresh2,
    extractTipState toString tip accounts1 h1 = inr (st, h1 ++ [fresh1])
    /\ extractTipState toString tip accounts2 h2 = inr (st, h2 ++ [fresh2])
    /\ (forall l a, h1 !! l = Some a -> (h1 ++ [fresh1]) !! l = Some a)
    /\ (h1 ++ [fresh1]) !! tips tip = Some (ArrTips ts)
    /\ (h1 ++ [fresh1]) !! accounts1 = Some (ArrStr la).
Proof.
  intros Hts1 Hla1 Hts2 Hla2.
  eexists _, _, _.
  split; [by apply extractTipState_run|].
  split; [by apply extractTipState_run|].
  split; [|split]; intros; by apply lookup_app_l_Some.
Qed.

(** C8. [extractTipState] is total: on a record of either shape, with any
    contributions (none included) and any accounts (none included), the
    run returns a state and raises no error.  An index outside the array
    would raise [EUndefined], so every index of the median, [midIndex - 1]
    included, is within bounds. *)
Theorem extractTipState_total tip (allAccounts : loc) h ts la :
  h !! tips tip = Some (ArrTips ts) ->
  h !! allAccounts = Some (ArrStr la) ->
  (exists st h', extractTipState toString tip allAccounts h = inr (st, h'))
  /\ (forall e, extractTipState toString tip allAccounts h <> inl e).
Proof.
  intros Hts Hla.
  rewrite (extractTipState_run tip allAccounts h ts la Hts Hla).
  split; [by eexists _, _|done].
Qed.

(** C9. A record is classified as current exactly when its [findersFee]
    field is present; the field is then an object, truthy whatever flag it
    wraps, so neither the classification nor the source of the finder and
    the deposit depends on the value of the flag. *)
Theorem isCurrentTip_iff_findersFee_present :
  (forall tip, isCurrentTip tip = ToBoolean (findersFee tip))
  /\ (forall tip,
        isCurrentTip tip = true <-> exists b, findersFee tip = VBoolObject b)
  /\ (forall (t : @OpenTip AccountId Hash), isCurrentTip (Current t) = true)
  /\ (forall (t : @OpenTipTo225 AccountId Hash),
        isCurrentTip (Legacy t) = false)
  /\ (forall (t : @OpenTip AccountId Hash) (allAccounts : loc) h ts la,
        h !! ot_tips t = Some (ArrTips ts) ->
        h !! allAccounts = Some (ArrStr la) ->
        exists st h',
          extractTipState toString (Current t) allAccounts h = inr (st, h')
          /\ finder st = Some (ot_finder t)
          /\ deposit st = Some (ot_deposit t)).
Proof.
  split; [|split; [|split; [|split]]].
  - intros tip. unfold isCurrentTip. apply negb_involutive.
  - intros [t|t]; unfold isCurrentTip; simpl; split; try done.
    + intros _. by eexists.
    + by intros [b ?].
  - done.
  - done.
  - intros t allAccounts h ts la Hts Hla.
    eexists _, _. split; [by apply (extractTipState_run (Current t))|].
    done.
Qed.

(** C10. [closesAt] is the block number of the optional [closes] field of
    the record when there is one and null otherwise, whatever the local
    accounts are. *)
Theorem closesAt_is_closes tip (accounts1 accounts2 : loc) h ts la1 la2 :
  h !! tips tip = Some (ArrTips ts) ->
  h !! accounts1 = Some (ArrStr la1) ->
  h !! accounts2 = Some (ArrStr la2) ->
  exists st1 h1 st2 h2,
    extractTipState toString tip accounts1 h = inr (st1, h1)
    /\ extractTipState toString tip accounts2 h = inr (st2, h2)
    /\ closesAt st1 = closesAt st2
    /\ match closes tip with
       | Some blockNumber => closesAt st1 = Some blockNumber
       | None => closesAt st1 = None
       end.
Proof.
  intros Hts Hla1 Hla2.
  eexists _, _, _, _.
  split; [by apply extractTipState_run|].
  split; [by apply extractTipState_run|]. simpl.
  split; [done|]. by destruct (closes tip).
Qed.

End Facts.

(** ** The scenarios of the specification, by evaluation *)

Example three_contributions :
  extractTipState Sample.address Sample.current 1%nat Sample.heap
  = inr ({| closesAt := Some 100; deposit := Some 5;
            finder := Some Sample.bob; isFinder := true; isTipped := true;
            isTipper := true; median := 20 |},
         Sample.heap ++ [ArrBN [10; 20; 30]]).
Proof. reflexivity. Qed.

Example two_contributions :
  extractTipState Sample.address Sample.anonymous 1%nat
    [ArrTips [(Sample.alice, 10); (Sample.bob, 30)]; ArrStr []]
  = inr ({| closesAt := None; deposit := None; finder := None;
            isFinder := false; isTipped := true; isTipper := false;
            median := 20 |},
         [ArrTips [(Sample.alice, 10); (Sample.bob, 30)]; ArrStr [];
          ArrBN [10; 30]]).
Proof. reflexivity. Qed.

Example no_contribution :
  extractTipState Sample.address Sample.anonymous 1%nat
    [ArrTips []; ArrStr [Sample.alice]]
  = inr ({| closesAt := None; deposit := None; finder := None;
            isFinder := false; isTipped := false; isTipper := false;
            median := 0 |},
         [ArrTips []; ArrStr [Sample.alice]; ArrBN []]).
Proof. reflexivity. Qed.

Example legacy_finder_unwrapped :
  exists st h',
    extractTipState Sample.address Sample.legacy 1%nat Sample.heap
    = inr (st, h')
    /\ finder st = Some Sample.alice /\ deposit st = Some 7
    /\ isFinder st = false /\ isTipper st = false /\ median st = 20.
Proof. eexists _, _. split; [vm_compute; reflexivity|]. repeat split. Qed.

(** The model does tell a sort of the caller's array from a sort of a
    copy, and an index outside an array from one inside. *)
Example sort_bn_overwrites :
  sort_bn (AccountId := string) BN.cmp 0%nat [ArrBN [3; 1; 2]]
  = inr (0%nat, [ArrBN [1; 2; 3]]).
Proof. reflexivity. Qed.

Example get_bn_outside :
  get_bn (AccountId := string) 0%nat (-1) [ArrBN [3; 1; 2]] = inl EUndefined
  /\ get_bn (AccountId := string) 0%nat 3 [ArrBN [3; 1; 2]] = inl EUndefined
  /\ get_bn (AccountId := string) 0%nat 2 [ArrBN [3; 1; 2]]
     = inr (2, [ArrBN [3; 1; 2]]).
Proof. repeat split. Qed.

(** Amounts beyond the 53 bits a JavaScript number holds exactly. *)
Example large_amounts :
  exists st h',
    extractTipState Sample.address Sample.legacy 0%nat
      [ArrStr []; ArrStr [];
       ArrTips [(Sample.alice, 2 ^ 100 + 5); (Sample.bob, 2 ^ 100 + 2)]]
    = inr (st, h')
    /\ median st = 2 ^ 100 + 3.
Proof. eexists _, _. split; [vm_compute; reflexivity|reflexivity]. Qed.

(** ** The claims on the sample records *)

Lemma sample_amounts_in_range :
  Forall is_Balance (map snd Sample.contributions).
Proof. repeat constructor; unfold is_Balance; simpl; lia. Qed.

Lemma sample_ascending : Sorted Z.le [10; 20; 30].
Proof. repeat constructor; lia. Qed.

Lemma median_is_standard_median_witness :
  Sample.contributions <> []
  /\ Forall is_Balance (map snd Sample.contributions)
  /\ Sorted Z.le [10; 20; 30]
  /\ [10; 20; 30] ≡ₚ map snd Sample.contributions
  /\ exists st h',
       extractTipState Sample.address Sample.current 1%nat Sample.heap
       = inr (st, h')
       /\ median st = standard_median [10; 20; 30].
Proof.
  assert (Hperm : [10; 20; 30] ≡ₚ map snd Sample.contributions)
    by exact (js_sort_Permutation BN.cmp [30; 10; 20]).
  repeat split;
    [discriminate | exact sample_amounts_in_range | exact sample_ascending
    | exact Hperm | ].
  exact (median_is_standard_median Sample.address Sample.current 1%nat
           Sample.heap Sample.contributions Sample.accounts [10; 20; 30]
           eq_refl eq_refl ltac:(discriminate) sample_amounts_in_range
           sample_ascending Hperm).
Defined.

Lemma finder_and_deposit_extracted_witness :
  exists st h',
    extractTipState Sample.address Sample.legacy 1%nat Sample.heap
    = inr (st, h')
    /\ finder st = Some Sample.alice /\ deposit st = Some 7.
Proof.
  exact (finder_and_deposit_extracted Sample.address Sample.legacy 1%nat
           Sample.heap Sample.reordered Sample.accounts eq_refl eq_refl).
Defined.

Lemma isFinder_iff_witness :
  exists st h',
    extractTipState Sample.address Sample.current 1%nat Sample.heap
    = inr (st, h')
    /\ (isFinder st = true <->
        exists f, finder st = Some f /\ In (Sample.address f) Sample.accounts)
    /\ (finder st = None -> isFinder st = false).
Proof.
  exact (isFinder_iff Sample.address Sample.current 1%nat Sample.heap
           Sample.contributions Sample.accounts eq_refl eq_refl).
Defined.

Lemma isTipper_iff_witness :
  exists st h',
    extractTipState Sample.address Sample.current 1%nat Sample.heap
    = inr (st, h')
    /\ (isTipper st = true <->
        exists account value,
          In (account, value) Sample.contributions
          /\ In (Sample.address account) Sample.accounts).
Proof.
  exact (isTipper_iff Sample.address Sample.current 1%nat Sample.heap
           Sample.contributions Sample.accounts eq_refl eq_refl).
Defined.

Lemma isTipped_iff_and_empty_median_witness :
  exists st h',
    extractTipState Sample.address Sample.current 1%nat Sample.heap
    = inr (st, h')
    /\ (isTipped st = true <-> Sample.contributions <> [])
    /\ (Sample.contributions = [] -> median st = 0).
Proof.
  exact (isTipped_iff_and_empty_median Sample.address Sample.current 1%nat
           Sample.heap Sample.contributions Sample.accounts eq_refl eq_refl).
Defined.

Lemma median_depends_on_amounts_only_witness :
  map snd Sample.contributions ≡ₚ map snd Sample.reordered
  /\ exists st1 h1' st2 h2',
       extractTipState Sample.address Sample.current 1%nat Sample.heap
       = inr (st1, h1')
       /\ extractTipState Sample.address Sample.legacy 1%nat Sample.heap
          = inr (st2, h2')
       /\ median st1 = median st2.
Proof.
  assert (Hperm : map snd Sample.contributions ≡ₚ map snd Sample.reordered).
  { symmetry. exact (js_sort_Permutation BN.cmp [30; 10; 20]). }
  split; [exact Hperm|].
  exact (median_depends_on_amounts_only Sample.address
           Sample.current Sample.legacy 1%nat 1%nat Sample.heap Sample.heap
           Sample.contributions Sample.reordered Sample.accounts
           Sample.accounts eq_refl eq_refl eq_refl eq_refl Hperm).
Defined.

Lemma extractTipState_pure_witness :
  exists st fresh1 fresh2,
    extractTipState Sample.address Sample.current 1%nat Sample.heap
    = inr (st, Sample.heap ++ [fresh1])
    /\ extractTipState Sample.address Sample.current 2%nat
         [ArrTips Sample.contributions; ArrStr []; ArrStr Sample.accounts]
       = inr (st, [ArrTips Sample.contributions; ArrStr [];
                   ArrStr Sample.accounts] ++ [fresh2])
    /\ (forall l a,
          Sample.heap !! l = Some a ->
          (Sample.heap ++ [fresh1]) !! l = Some a)
    /\ (Sample.heap ++ [fresh1]) !! 0%nat = Some (ArrTips Sample.contributions)
    /\ (Sample.heap ++ [fresh1]) !! 1%nat = Some (ArrStr Sample.accounts).
Proof.
  exact (extractTipState_pure Sample.address Sample.current 1%nat 2%nat
           Sample.heap
           [ArrTips Sample.contributions; ArrStr []; ArrStr Sample.accounts]
           Sample.contributions Sample.accounts
           eq_refl eq_refl eq_refl eq_refl).
Defined.

Lemma extractTipState_total_witness :
  (exists st h',
     extractTipState Sample.address Sample.legacy 1%nat
       [ArrStr []; ArrStr []; ArrTips []]
     = inr (st, h'))
  /\ (forall e,
        extractTipState Sample.address Sample.legacy 1%nat
          [ArrStr []; ArrStr []; ArrTips []]
        <> inl e).
Proof.
  exact (extractTipState_total Sample.address Sample.legacy 1%nat
           [ArrStr []; ArrStr []; ArrTips []] [] [] eq_refl eq_refl).
Defined.

Lemma isCurrentTip_iff_findersFee_present_witness :
  isCurrentTip Sample.current = ToBoolean (VBoolObject false)
  /\ exists st h',
       extractTipState Sample.address Sample.current 1%nat Sample.heap
       = inr (st, h')
       /\ finder st = Some Sample.bob
       /\ deposit st = Some 5.
Proof.
  destruct (isCurrentTip_iff_findersFee_present (Hash := string)
              Sample.address) as (Htruthy & _ & _ & _ & Hrun).
  split; [exact (Htruthy Sample.current)|].
  exact (Hrun Sample.open_tip 1%nat Sample.heap Sample.contributions
           Sample.accounts eq_refl eq_refl).
Defined.

Lemma closesAt_is_closes_witness :
  exists st1 h1 st2 h2,
    extractTipState Sample.address Sample.current 1%nat
      (Sample.heap ++ [ArrStr []])
    = inr (st1, h1)
    /\ extractTipState Sample.address Sample.current 3%nat
         (Sample.heap ++ [ArrStr []])
       = inr (st2, h2)
    /\ closesAt st1 = closesAt st2
    /\ closesAt st1 = Some 100.
Proof.
  exact (closesAt_is_closes Sample.address Sample.current 1%nat 3%nat
           (Sample.heap ++ [ArrStr []]) Sample.contributions
           Sample.accounts [] eq_refl eq_refl eq_refl).
Defined.

(** * Properties of the rest of the code *)

(** ** Splitting a path *)

Lemma split_cons sep s : exists segment segments, split sep s = segment :: segments.
Proof.
  destruct s as [|c r]; simpl; [by eexists _, _|].
  destruct (Ascii.eqb c sep); [by eexists _, _|].
  destruct (split sep r); by eexists _, _.
Qed.

Lemma split_no_separator sep s : has_char sep s = false -> split sep s = [s].
Proof.
  induction s as [|c r IH]; simpl; [done|].
  intros [Hc Hr]%orb_false_iff. rewrite Hc, (IH Hr). done.
Qed.

Lemma split_app sep a r :
  has_char sep a = false ->
  split sep (a ++ String sep r)%string = a :: split sep r.
Proof.
  induction a as [|c a IH]; simpl.
  - intros _. by rewrite Ascii.eqb_refl.
  - intros [Hc Ha]%orb_false_iff. rewrite Hc, (IH Ha). done.
Qed.

Lemma length_append a b :
  String.length (a ++ b) = (String.length a + String.length b)%nat.
Proof. induction a; simpl; [done|]. by rewrite IHa. Qed.

Lemma append_neq_self a b : b <> EmptyString -> (a ++ b)%string <> a.
Proof.
  intros Hb Heq. apply (f_equal String.length) in Heq.
  rewrite length_append in Heq.
  destruct b; [done|]. simpl in Heq. lia.
Qed.

(** Splitting loses nothing: joining the segments with the separator
    gives the string back, and no segment contains the separator. *)
Lemma split_concat sep s :
  String.concat (String sep EmptyString) (split sep s) = s
  /\ Forall (fun segment => has_char sep segment = false) (split sep s).
Proof.
  induction s as [|c r [IHc IHf]]; simpl.
  - split; [done|]. by repeat constructor.
  - destruct (Ascii.eqb_spec c sep) as [->|Hne].
    + split.
      * destruct (split_cons sep r) as (x & xs & Hx).
        rewrite Hx in *. simpl. by rewrite <- IHc.
      * by constructor.
    + destruct (split_cons sep r) as (x & xs & Hx). rewrite Hx in *.
      split.
      * destruct xs; simpl in *; by rewrite <- IHc.
      * inversion IHf; subst. constructor; [|done]. simpl.
        apply orb_false_iff. split; [|done]. by apply Ascii.eqb_neq.
Qed.

Lemma split_tab_path base name :
  has_char "/" base = false ->
  has_char "/" name = false ->
  split "/" (String "/" base ++ "/" ++ name)
  = [EmptyString; base; name].
Proof.
  intros Hb Hn. simpl.
  by rewrite (split_app "/" base name Hb), (split_no_separator "/" name Hn).
Qed.

(** X2. The path of a tab, [/base/name], has the name as its section. *)
Theorem section_of_tab_path base name :
  has_char "/" base = false ->
  has_char "/" name = false ->
  section_of (String "/" base ++ "/" ++ name) = Some name.
Proof.
  intros Hb Hn. unfold section_of. by rewrite split_tab_path.
Qed.

(** ** Tabs *)

Lemma strict_equal_eq a b : strict_equal a b = true <-> a = b.
Proof.
  destruct a as [x|], b as [y|]; simpl; try (split; done).
  destruct (String.eqb_spec x y); split; congruence.
Qed.

Lemma hidden_includes_name hs n :
  hidden_includes hs (Some n) = true <-> In (HString n) hs.
Proof.
  unfold hidden_includes. rewrite existsb_exists. split.
  - intros ([s|b|] & Hin & Heq); simpl in Heq; try done.
    apply String.eqb_eq in Heq. by subst.
  - intros Hin. exists (HString n). split; [done|]. apply String.eqb_refl.
Qed.

Lemma find_alias_none pathname items :
  (forall item, In item items -> tab_alias item <> section_of pathname) ->
  List.find (fun item => strict_equal (tab_alias item) (section_of pathname))
    items = None.
Proof.
  intros Hno.
  destruct (List.find _ items) as [item|] eqn:Hfind; [|done].
  apply find_some in Hfind as [Hin Heq].
  apply strict_equal_eq in Heq. by destruct (Hno item Hin).
Qed.

(** X3. Whatever the effect assigns to the location is the base path or
    the path of an item that is not a root and whose alias is the section
    of the current path; on the base path itself it assigns nothing. *)
Theorem Tabs_redirect_target pathname basePath hidden items target :
  Tabs_redirect pathname basePath hidden items = Some target ->
  pathname <> basePath
  /\ (target = basePath
      \/ exists item,
           In item items
           /\ tab_alias item = section_of pathname
           /\ truthy_flag (tab_isRoot item) = false
           /\ target = (basePath ++ "/" ++ tab_name item)%string).
Proof.
  unfold Tabs_redirect.
  destruct (String.eqb_spec pathname basePath) as [|Hne]; simpl; [done|].
  intros Hrun. split; [done|].
  destruct (List.find _ items) as [item|] eqn:Hfind.
  - apply find_some in Hfind as [Hin Heq]. apply strict_equal_eq in Heq.
    destruct (truthy_flag (tab_isRoot item)) eqn:Hroot.
    + left. congruence.
    + right. exists item. repeat split; congruence.
  - left. destruct hidden as [hs|]; [|done].
    destruct (_ || _); congruence.
Qed.


(** Off the base path and with no alias for the section, only the
    [hidden] list can redirect. *)
Lemma Tabs_redirect_no_alias pathname basePath hidden items :
  pathname <> basePath ->
  (forall item, In item items -> tab_alias item <> section_of pathname) ->
  Tabs_redirect pathname basePath hidden items
  = match hidden with
    | Some hs =>
        if hidden_includes hs (section_of pathname)
           || negb (existsb
                      (fun item =>
                         negb (truthy_flag (tab_isRoot item))
                         && strict_equal (Some (tab_name item))
                              (section_of pathname))
                      items)
        then Some basePath
        else None
    | None => None
    end.
Proof.
  intros Hne Hno. unfold Tabs_redirect.
  destruct (String.eqb_spec pathname basePath); [done|]. cbn [negb].
  by rewrite (find_alias_none pathname items Hno).
Qed.

Lemma Tabs_kept_iff pathname hs items :
  hidden_includes hs (section_of pathname)
  || negb (existsb
             (fun item =>
                negb (truthy_flag (tab_isRoot item))
                && strict_equal (Some (tab_name item)) (section_of pathname))
             items) = false
  <-> exists item,
        In item (Tabs_filtered (Some hs) items)
        /\ truthy_flag (tab_isRoot item) = false
        /\ section_of pathname = Some (tab_name item).
Proof.
  unfold Tabs_filtered.
  rewrite orb_false_iff, negb_false_iff, existsb_exists. split.
  - intros (Hhid & item & Hin & [Hroot Hname]%andb_true_iff).
    apply strict_equal_eq in Hname. apply negb_true_iff in Hroot.
    exists item. split; [|done].
    apply filter_In. split; [done|]. by rewrite Hname, Hhid.
  - intros (item & [Hin Hshown]%filter_In & Hroot & Hsec).
    rewrite Hsec. apply negb_true_iff in Hshown. split; [done|].
    exists item. split; [done|]. rewrite Hroot. cbn [negb andb].
    by apply strict_equal_eq.
Qed.

(** X5. Without a [hidden] list only aliases redirect: a path whose
    section is the alias of no item is left alone, also when it names no
    tab at all. *)
Theorem Tabs_redirect_without_hidden pathname basePath items :
  (forall item, In item items -> tab_alias item <> section_of pathname) ->
  Tabs_redirect pathname basePath None items = None.
Proof.
  intros Hno. unfold Tabs_redirect.
  destruct (negb _); [|done].
  by rewrite (find_alias_none pathname items Hno).
Qed.

(** X6. With a [hidden] list, a path off the base path whose section is
    no alias is kept exactly when its section is the name of a displayed
    tab that is not a root; otherwise the location becomes the base
    path. *)
Theorem Tabs_redirect_with_hidden pathname basePath hs items :
  pathname <> basePath ->
  (forall item, In item items -> tab_alias item <> section_of pathname) ->
  (Tabs_redirect pathname basePath (Some hs) items = None <->
   exists item,
     In item (Tabs_filtered (Some hs) items)
     /\ truthy_flag (tab_isRoot item) = false
     /\ section_of pathname = Some (tab_name item))
  /\ (Tabs_redirect pathname basePath (Some hs) items = None
      \/ Tabs_redirect pathname basePath (Some hs) items = Some basePath).
Proof.
  intros Hne Hno.
  rewrite (Tabs_redirect_no_alias pathname basePath (Some hs) items Hne Hno).
  rewrite <- (Tabs_kept_iff pathname hs items).
  destruct (_ || _); split; try done; [by right|by left].
Qed.

(** X7. The address of a displayed tab is stable: on the path [/base/name]
    of a displayed tab that is not a root, whose name is not used as an
    alias, the effect assigns nothing. *)
Theorem Tabs_redirect_stable base hidden items item :
  has_char "/" base = false ->
  has_char "/" (tab_name item) = false ->
  In item (Tabs_filtered hidden items) ->
  truthy_flag (tab_isRoot item) = false ->
  (forall other, In other items -> tab_alias other <> Some (tab_name item)) ->
  Tabs_redirect (String "/" base ++ "/" ++ tab_name item) (String "/" base)
    hidden items = None.
Proof.
  intros Hbase Hname Hshown Hroot Hno.
  assert (Hsec : section_of (String "/" base ++ "/" ++ tab_name item)
                 = Some (tab_name item))
    by (unfold section_of; by rewrite split_tab_path).
  rewrite Tabs_redirect_no_alias.
  - destruct hidden as [hs|]; [|done].
    rewrite (proj2 (Tabs_kept_iff _ hs items)); [done|]. by exists item.
  - apply append_neq_self. done.
  - intros other Hin. rewrite Hsec. by apply Hno.
Qed.

(** X8. A tab is displayed exactly when it is an item whose name is not a
    string of the [hidden] list, entries that are booleans or [undefined]
    hide nothing, and the displayed tabs keep the order of the items. *)
Theorem Tabs_filtered_displayed hs items :
  (forall item,
     In item (Tabs_filtered (Some hs) items) <->
     In item items /\ ~ In (HString (tab_name item)) hs)
  /\ sublist (Tabs_filtered (Some hs) items) items
  /\ Tabs_filtered None items = items.
Proof.
  split; [|split; [|done]].
  - intros item. unfold Tabs_filtered. rewrite filter_In.
    rewrite negb_true_iff, <- not_true_iff_false, hidden_includes_name.
    done.
  - unfold Tabs_filtered.
    induction items as [|item items IH]; simpl; [constructor|].
    destruct (negb _); by constructor.
Qed.

(** ** The metadata form *)



(** X10. With an asset chosen, a transaction is offered exactly when none
    of the three inputs is marked as an error; without an asset none is
    offered. *)
Theorem Metadata_offer_iff_no_error id assetName assetSymbol assetDecimals :
  (is_Some (Metadata_onChange (Some id) assetName assetSymbol assetDecimals)
   <-> negb (isValidName assetName) = false
       /\ negb (isValidSymbol assetSymbol) = false
       /\ negb (isValidDecimals assetDecimals) = false)
  /\ Metadata_onChange None assetName assetSymbol assetDecimals = None.
Proof.
  split; [|done].
  rewrite !negb_false_iff. unfold Metadata_onChange.
  destruct assetName as [name|], assetSymbol as [symbol|],
    assetDecimals as [decimals|];
    try (split; [by intros [? [=]] | by intros (? & ? & ?)]).
  destruct (_ && _) eqn:Hcond.
  - split; [|by eexists]. intros _.
    apply andb_true_iff in Hcond as [Hcond ?].
    apply andb_true_iff in Hcond as [Hcond ?].
    apply andb_true_iff in Hcond as [Hcond ?]. done.
  - split; [by intros [? [=]]|]. intros (Hn & Hs & Hd).
    rewrite Hn, Hs, Hd, !andb_true_r in Hcond.
    unfold isValidName, isValidSymbol in Hn, Hs.
    apply andb_true_iff in Hn as [[Hn _]%andb_true_iff _].
    apply andb_true_iff in Hs as [Hs _].
    by rewrite Hn, Hs in Hcond.
Qed.

(** ** Asset infos *)

Section AssetsFacts.

Context {AccountId AssetId AssetDetails AssetMetadata : Type}.
Context (toString : AccountId -> string) (idToString : AssetId -> string).
Context (admin freezer issuer owner : AssetDetails -> AccountId).
Context (isEmpty : AssetMetadata -> bool).

Local Abbreviation extract :=
  (extractInfo toString idToString admin freezer issuer owner isEmpty).

Lemma isAccount_In (allAccounts : list string) (a : AccountId) :
  isAccount toString allAccounts a = true <-> In (toString a) allAccounts.
Proof.
  unfold isAccount. rewrite existsb_exists. split.
  - intros (x & Hin & Heq). apply String.eqb_eq in Heq. by subst.
  - intros Hin. eexists. split; [done|]. apply String.eqb_refl.
Qed.

Lemma has_role_iff (allAccounts : list string) (o : option AssetDetails)
    (role : AssetDetails -> AccountId) :
  has_role toString allAccounts o role = true
  <-> exists d, o = Some d /\ In (toString (role d)) allAccounts.
Proof.
  destruct o as [d|]; simpl.
  - rewrite isAccount_In. split; [by exists d|]. by intros (? & [= <-] & ?).
  - split; [done|]. by intros (? & ? & _).
Qed.

(** X11. Each of the four role flags of an asset holds exactly when the
    asset has details and the address of the account in that role is a
    local account; an asset without details has no flag set, and its
    metadata is null exactly when the chain's record is empty. *)
Theorem extractInfo_roles (allAccounts : list string) (id : AssetId)
    (optDetails : option AssetDetails) (metadata : AssetMetadata) :
  let info := extract allAccounts id optDetails metadata in
  (ai_isAdmin info = true <->
   exists d, optDetails = Some d /\ In (toString (admin d)) allAccounts)
  /\ (ai_isFreezer info = true <->
      exists d, optDetails = Some d /\ In (toString (freezer d)) allAccounts)
  /\ (ai_isIssuer info = true <->
      exists d, optDetails = Some d /\ In (toString (issuer d)) allAccounts)
  /\ (ai_isOwner info = true <->
      exists d, optDetails = Some d /\ In (toString (owner d)) allAccounts)
  /\ (optDetails = None ->
      ai_isAdmin info = false /\ ai_isFreezer info = false
      /\ ai_isIssuer info = false /\ ai_isOwner info = false)
  /\ (ai_metadata info = None <-> isEmpty metadata = true).
Proof.
  simpl.
  assert (Hunwrap : unwrapOr optDetails None = optDetails)
    by (by destruct optDetails).
  rewrite Hunwrap, !has_role_iff.
  repeat split; try done; try (by subst); by destruct (isEmpty metadata).
Qed.

Lemma map_index_run {A B} (f : A -> nat -> Error + B)
    (P : nat -> A -> B -> Prop) (l : list A) (k : nat) :
  (forall i x, l !! i = Some x ->
     exists y, f x (k + i)%nat = inr y /\ P (k + i)%nat x y) ->
  exists ys,
    map_index f l k = inr ys
    /\ length ys = length l
    /\ forall i x, l !! i = Some x ->
         exists y, ys !! i = Some y /\ P (k + i)%nat x y.
Proof.
  revert k. induction l as [|x r IH]; intros k Hf; simpl.
  - exists []. by repeat split.
  - destruct (Hf 0%nat x eq_refl) as (y & Hy & HP).
    rewrite Nat.add_0_r in Hy, HP. rewrite Hy.
    destruct (IH (S k)) as (ys & Hys & Hlen & Hall).
    { intros i z Hz. replace (S k + i)%nat with (k + S i)%nat by lia.
      by apply Hf. }
    rewrite Hys. exists (y :: ys). split; [done|]. split; [simpl; lia|].
    intros [|i] z Hz; simpl in *.
    + injection Hz as <-. exists y. by rewrite Nat.add_0_r.
    + destruct (Hall i z Hz) as (w & Hw & HPw). exists w.
      split; [done|]. by replace (k + S i)%nat with (S k + i)%nat by lia.
Qed.

Lemma useAssetInfos_run (allAccounts : list string)
    (ids : list AssetId) (details : list (option AssetDetails))
    (metadatas : list AssetMetadata) :
  length details = length ids ->
  length metadatas = length ids ->
  exists infos,
    useAssetInfos toString idToString admin freezer issuer owner isEmpty
      allAccounts (Some ids) (Some details) (Some metadatas)
    = inr (Some infos)
    /\ length infos = length ids
    /\ forall i id,
         ids !! i = Some id ->
         exists d m,
           details !! i = Some d /\ metadatas !! i = Some m
           /\ infos !! i = Some (extract allAccounts id d m).
Proof.
  intros Hd Hm. unfold useAssetInfos.
  rewrite Hd, Hm, Nat.eqb_refl. cbn [andb].
  edestruct (map_index_run
               (fun id index =>
                  match at_index details index with
                  | inl e => inl e
                  | inr d =>
                      match at_index metadatas index with
                      | inl e => inl e
                      | inr m => inr (extract allAccounts id d m)
                      end
                  end)
               (fun i id info =>
                  exists d m, details !! i = Some d /\ metadatas !! i = Some m
                              /\ info = extract allAccounts id d m)
               ids 0%nat) as (infos & Hrun & Hlen & Hall).
  { intros i id Hid. simpl. unfold at_index.
    apply lookup_lt_Some in Hid.
    destruct (lookup_lt_is_Some_2 details i) as [d Hdi]; [lia|].
    destruct (lookup_lt_is_Some_2 metadatas i) as [m Hmi]; [lia|].
    rewrite Hdi, Hmi. eexists. split; [done|]. by exists d, m. }
  rewrite Hrun. exists infos. split; [done|]. split; [done|].
  intros i id Hid.
  destruct (Hall i id Hid) as (info & Hinfo & d & m & Hdi & Hmi & ->).
  by exists d, m.
Qed.

(** X12. When both query results have arrived with one entry per id, the
    hook returns one info per id, in the order of the ids: every index it
    reads is within both results, and the info at a position is extracted
    from the id, the details and the metadata at that position. *)
Theorem useAssetInfos_defined (allAccounts : list string)
    (ids : list AssetId) (details : list (option AssetDetails))
    (metadatas : list AssetMetadata) :
  length details = length ids ->
  length metadatas = length ids ->
  exists infos,
    useAssetInfos toString idToString admin freezer issuer owner isEmpty
      allAccounts (Some ids) (Some details) (Some metadatas)
    = inr (Some infos)
    /\ length infos = length ids
    /\ map ai_id infos = ids
    /\ forall i id,
         ids !! i = Some id ->
         exists d m,
           details !! i = Some d /\ metadatas !! i = Some m
           /\ infos !! i = Some (extract allAccounts id d m).
Proof.
  intros Hd Hm.
  destruct (useAssetInfos_run allAccounts ids details metadatas Hd Hm)
    as (infos & Hrun & Hlen & Hall).
  exists infos. split; [done|]. split; [done|]. split; [|done].
  apply list_eq. intros i. rewrite list_lookup_fmap.
  destruct (ids !! i) as [id|] eqn:Hid.
  - by destruct (Hall i id Hid) as (d & m & _ & _ & ->).
  - apply lookup_ge_None in Hid.
    rewrite (proj2 (lookup_ge_None infos i)); [done|lia].
Qed.

(** X13. The hook never throws.  It returns [undefined] exactly when the
    ids or one of the two query results are missing, or when a result
    does not have one entry per id; with no ids and two empty results it
    returns the empty list. *)
Theorem useAssetInfos_undefined_iff (allAccounts : list string)
    (ids : option (list AssetId))
    (allDetails : option (list (option AssetDetails)))
    (allMetadata : option (list AssetMetadata)) :
  exists result,
    useAssetInfos toString idToString admin freezer issuer owner isEmpty
      allAccounts ids allDetails allMetadata = inr result
    /\ (result = None <->
        ~ exists xs ds ms,
            ids = Some xs /\ allDetails = Some ds /\ allMetadata = Some ms
            /\ length ds = length xs /\ length ms = length xs)
    /\ (ids = Some [] -> allDetails = Some [] -> allMetadata = Some [] ->
        result = Some []).
Proof.
  destruct ids as [xs|], allDetails as [ds|], allMetadata as [ms|];
    try (exists None; split; [done|]; split;
         [split; [|done]; by intros _ (? & ? & ? & ? & ? & ? & _)
         |by intros]).
  destruct (Nat.eq_dec (length ds) (length xs)) as [Hd|Hd];
    [destruct (Nat.eq_dec (length ms) (length xs)) as [Hm|Hm]|].
  - destruct (useAssetInfos_run allAccounts xs ds ms Hd Hm)
      as (infos & Hrun & Hlen & _).
    exists (Some infos). split; [done|]. split.
    + split; [done|]. intros Hno. destruct Hno. by exists xs, ds, ms.
    + intros [= ->] _ _. by destruct infos.
  - exists None. unfold useAssetInfos.
    apply Nat.eqb_neq in Hm as Hm'. rewrite Hm', andb_false_r.
    split; [done|]. split.
    + split; [|done]. intros _ (? & ? & ? & [= <-] & [= <-] & [= <-] & _ & ?).
      done.
    + intros [= ->] _ [= ->]. done.
  - exists None. unfold useAssetInfos.
    apply Nat.eqb_neq in Hd as Hd'. rewrite Hd'. cbn [andb].
    split; [done|]. split.
    + split; [|done]. intros _ (? & ? & ? & [= <-] & [= <-] & [= <-] & ? & _).
      done.
    + intros [= ->] [= ->] _. done.
Qed.

End AssetsFacts.

(** ** The tip row *)

Lemma find_first {A} (f : A -> bool) (l : list A) (x : A) :
  List.find f l = Some x ->
  exists pre post,
    l = pre ++ x :: post /\ f x = true /\ forall y, In y pre -> f y = false.
Proof.
  induction l as [|y r IH]; simpl; [done|].
  destruct (f y) eqn:Hy.
  - intros [= ->]. exists [], r. by repeat split.
  - intros (pre & post & -> & Hx & Hpre)%IH.
    exists (y :: pre), post. repeat split; [done|].
    intros z [<-|Hz]; [done|by apply Hpre].
Qed.

Section TipRowFacts.

Context {AccountId Hash : Type} (toString : AccountId -> string).
Implicit Types (h : list (@Arr AccountId)) (p : @Props AccountId Hash).
Implicit Types (ts : list (AccountId * Balance)) (la lm : list string).

Lemma find_loop_run (f : string -> @M AccountId bool) (g : string -> bool)
    h (xs : list string) :
  (forall x, f x h = inr (g x, h)) ->
  find_loop f xs h = inr (List.find g xs, h).
Proof.
  intros Hf. induction xs as [|x r IH]; simpl; [done|].
  rewrite (bind_run _ _ _ _ _ (Hf x)).
  by destruct (g x).
Qed.

Lemma find_str_run f g (l : nat) h la :
  h !! l = Some (ArrStr la) ->
  (forall x, f x h = inr (g x, h)) ->
  find_str f l h = inr (List.find g la, h).
Proof.
  intros Hl Hf. unfold find_str. rewrite Hl. by apply find_loop_run.
Qed.

Lemma length_tips_run (l : nat) h ts :
  h !! l = Some (ArrTips ts) ->
  length_tips l h = inr (Z.of_nat (length ts), h).
Proof. unfold length_tips. by intros ->. Qed.

Lemma tippers_of_run (l : nat) h ts :
  h !! l = Some (ArrTips ts) -> tippers_of l h = inr (ts, h).
Proof.
  unfold tippers_of. intros ->. do 2 f_equal.
  induction ts as [|[a v] r IH]; simpl; [done|]. by rewrite IH.
Qed.

(** One render on a heap that holds the contributions, the local accounts
    and the council members: it returns, and the only change to the heap
    is the array that [extractTipState] allocates. *)
Lemma TipRow_run p (isMedianSelected : bool) (allAccounts : nat) h ts la lm :
  h !! tips (p_tip p) = Some (ArrTips ts) ->
  h !! allAccounts = Some (ArrStr la) ->
  h !! p_members p = Some (ArrStr lm) ->
  let st := run_state toString (p_tip p) ts la in
  let councilId := or_null (List.find (includes lm) la) in
  TipRow toString p isMedianSelected allAccounts h
  = inr ({| onSelect_call := (p_hash p, isMedianSelected, median st);
            setMedianTip_call := p_isMember p && negb (isTipper st);
            element :=
              if p_onlyUntipped p && negb (truthy_ref (closesAt st))
                 && isTipper st
              then None
              else Some
                {| r_who := who (p_tip p);
                   r_finder := finder st;
                   r_reason := reason (p_tip p);
                   r_tippers :=
                     match ts with
                     | [] => None
                     | _ :: _ => Some (Z.of_nat (length ts), median st, ts)
                     end;
                   r_action :=
                     match closesAt st with
                     | Some closesAt =>
                         match p_bestNumber p with
                         | Some bestNumber =>
                             if BN_gt closesAt bestNumber
                             then ClosingTimer (BN_sub closesAt bestNumber)
                                    closesAt
                             else NoAction
                         | None => NoAction
                         end
                     | None =>
                         match finder st with
                         | Some finder =>
                             if isFinder st then CancelButton finder
                             else NoAction
                         | None => NoAction
                         end
                     end;
                   r_button :=
                     if match closesAt st, p_bestNumber p with
                        | None, _ => true
                        | Some _, None => true
                        | Some closesAt, Some bestNumber =>
                            BN_gt closesAt bestNumber
                        end
                     then TipEndorse (p_defaultId p) (p_hash p) (p_isMember p)
                            (isTipped st) (median st) (p_members p)
                     else CloseButton councilId (p_hash p);
                   r_badge :=
                     if p_isMember p
                     then Some (if isTipper st then green else gray)
                     else None;
                   r_checkboxDisabled := negb (p_isMember p);
                   r_checkboxValue := isMedianSelected;
                   r_link := p_hash p |} |},
         h ++ [ArrBN (js_sort BN.cmp (map snd ts))]).
Proof.
  intros Hts Hla Hlm st councilId. unfold TipRow.
  rewrite (bind_run _ _ _ _ _
             (extractTipState_run toString _ _ _ _ _ Hts Hla)).
  fold st. set (h1 := h ++ _).
  assert (Hts1 : h1 !! tips (p_tip p) = Some (ArrTips ts))
    by (by apply lookup_app_l_Some).
  assert (Hla1 : h1 !! allAccounts = Some (ArrStr la))
    by (by apply lookup_app_l_Some).
  assert (Hlm1 : h1 !! p_members p = Some (ArrStr lm))
    by (by apply lookup_app_l_Some).
  rewrite (bind_run _ _ _ _ _
             (find_str_run _ (includes lm) _ _ _ Hla1
                (fun x => includes_str_run _ _ _ _ Hlm1))).
  fold councilId.
  destruct (p_onlyUntipped p && negb (truthy_ref (closesAt st))
            && isTipper st); [done|].
  rewrite (bind_run _ _ _ _ _ (length_tips_run _ _ _ Hts1)).
  destruct ts as [|c ts'].
  - done.
  - change (Z.of_nat (length (c :: ts')) =? 0) with false. cbn [negb].
    erewrite bind_run; [done|].
    rewrite (bind_run _ _ _ _ _ (length_tips_run _ _ _ Hts1)).
    by rewrite (bind_run _ _ _ _ _ (tippers_of_run _ _ _ Hts1)).
Qed.

Lemma BN_gt_lt (a b : Z) : BN_gt a b = true <-> b < a.
Proof.
  unfold BN_gt, BN.cmp. destruct (Z.compare_spec a b); simpl; split;
    try done; lia.
Qed.

Lemma local_tipper_iff (tip : @Tip AccountId Hash) ts la :
  isTipper (run_state toString tip ts la) = true
  <-> exists account value,
        In (account, value) ts /\ In (toString account) la.
Proof.
  simpl. rewrite existsb_exists. split.
  - intros ([a v] & Hin & Hinc). exists a, v. by rewrite <- includes_In.
  - intros (a & v & Hin & Hinc). exists (a, v). by rewrite includes_In.
Qed.

Ltac run_TipRow Hts Hla Hlm :=
  eexists _, _; split; [by apply (TipRow_run _ _ _ _ _ _ _ Hts Hla Hlm)|].

(** X14. The row is left out exactly when only untipped rows are wanted,
    the tip is not closing, and a local account is among its tippers. *)
Theorem TipRow_hidden_iff p (isMedianSelected : bool) (allAccounts : nat)
    h ts la lm :
  h !! tips (p_tip p) = Some (ArrTips ts) ->
  h !! allAccounts = Some (ArrStr la) ->
  h !! p_members p = Some (ArrStr lm) ->
  exists r h',
    TipRow toString p isMedianSelected allAccounts h = inr (r, h')
    /\ (element r = None <->
        p_onlyUntipped p = true
        /\ closes (p_tip p) = None
        /\ exists account value,
             In (account, value) ts /\ In (toString account) la).
Proof.
  intros Hts Hla Hlm. run_TipRow Hts Hla Hlm.
  cbn [element]. rewrite <- (local_tipper_iff (p_tip p)).
  set (st := run_state toString (p_tip p) ts la).
  change (closesAt st) with (closes (p_tip p)).
  destruct (p_onlyUntipped p), (closes (p_tip p)), (isTipper st);
    simpl; split; try done; by intros (? & ? & ?).
Qed.

(** X15. A rendered row shows the close button exactly when the tip has a
    closing block that the best block has reached; in every other case it
    shows the endorsement form, with the median that is reported to
    [onSelect]. *)
Theorem TipRow_close_or_endorse p (isMedianSelected : bool)
    (allAccounts : nat) h ts la lm :
  h !! tips (p_tip p) = Some (ArrTips ts) ->
  h !! allAccounts = Some (ArrStr la) ->
  h !! p_members p = Some (ArrStr lm) ->
  exists r h',
    TipRow toString p isMedianSelected allAccounts h = inr (r, h')
    /\ forall row,
         element r = Some row ->
         ((exists accountId, r_button row = CloseButton accountId (p_hash p))
          <-> exists closesAt bestNumber,
                closes (p_tip p) = Some closesAt
                /\ p_bestNumber p = Some bestNumber
                /\ closesAt <= bestNumber)
         /\ ((exists accountId, r_button row = CloseButton accountId (p_hash p))
             \/ r_button row
                = TipEndorse (p_defaultId p) (p_hash p) (p_isMember p)
                    (match ts with [] => false | _ :: _ => true end)
                    (snd (onSelect_call r)) (p_members p)).
Proof.
  intros Hts Hla Hlm. run_TipRow Hts Hla Hlm.
  cbn [element onSelect_call snd].
  set (st := run_state toString (p_tip p) ts la).
  change (closesAt st) with (closes (p_tip p)).
  change (isTipped st) with (match ts with [] => false | _ :: _ => true end).
  destruct (_ && _ && _); [done|]. intros row [= <-]. cbn [r_button].
  destruct (closes (p_tip p)) as [c|], (p_bestNumber p) as [b|];
    try (split; [split; [by intros [? ?]|by intros (? & ? & ? & ? & _)]
                |by right]).
  destruct (BN_gt c b) eqn:Hgt.
  - apply BN_gt_lt in Hgt. split; [|by right].
    split; [by intros [? ?]|]. intros (? & ? & [= <-] & [= <-] & ?). lia.
  - split; [|left; by eexists]. split; [|by eexists]. intros _.
    exists c, b. repeat split.
    destruct (Z.le_gt_cases c b) as [|Hlt]; [done|].
    apply BN_gt_lt in Hlt. congruence.
Qed.

(** X16. The countdown is shown exactly when the tip closes at a block
    after the best block; it then counts the blocks in between, a positive
    number, and the row offers the endorsement form and not the close
    button. *)
Theorem TipRow_closing_timer p (isMedianSelected : bool) (allAccounts : nat)
    h ts la lm :
  h !! tips (p_tip p) = Some (ArrTips ts) ->
  h !! allAccounts = Some (ArrStr la) ->
  h !! p_members p = Some (ArrStr lm) ->
  exists r h',
    TipRow toString p isMedianSelected allAccounts h = inr (r, h')
    /\ forall row value number,
         element r = Some row ->
         (r_action row = ClosingTimer value number <->
          closes (p_tip p) = Some number
          /\ exists bestNumber,
               p_bestNumber p = Some bestNumber
               /\ bestNumber < number
               /\ value = number - bestNumber)
         /\ (r_action row = ClosingTimer value number ->
             0 < value
             /\ forall accountId hash,
                  r_button row <> CloseButton accountId hash).
Proof.
  intros Hts Hla Hlm. run_TipRow Hts Hla Hlm.
  cbn [element].
  set (st := run_state toString (p_tip p) ts la).
  change (closesAt st) with (closes (p_tip p)).
  destruct (_ && _ && _); [done|]. intros row value number [= <-].
  cbn [r_action r_button].
  destruct (closes (p_tip p)) as [c|].
  - destruct (p_bestNumber p) as [b|]; [|split; [split|]; try done;
                                          by intros (_ & ? & ? & _)].
    destruct (BN_gt c b) eqn:Hgt.
    + apply BN_gt_lt in Hgt. unfold BN_sub. split; [split|].
      * intros [= <- <-]. split; [done|]. by exists b.
      * intros (? & b' & ? & _ & ?). by simplify_eq.
      * intros [= <- <-]. split; [lia|done].
    + split; [split|]; try done.
      intros (? & b' & ? & Hlt & _). simplify_eq.
      apply BN_gt_lt in Hlt. congruence.
  - subst st. cbn [finder isFinder run_state].
    destruct (fst (finder_deposit (p_tip p)));
      [destruct (includes _ _)|]; (split; [split|]); try done;
      by intros (? & _).
Qed.

(** X17. The finder's cancel button is shown exactly when the tip is not
    closing and the finder of the row is a local account; the button acts
    for that finder. *)
Theorem TipRow_cancel_button p (isMedianSelected : bool) (allAccounts : nat)
    h ts la lm :
  h !! tips (p_tip p) = Some (ArrTips ts) ->
  h !! allAccounts = Some (ArrStr la) ->
  h !! p_members p = Some (ArrStr lm) ->
  exists r h',
    TipRow toString p isMedianSelected allAccounts h = inr (r, h')
    /\ forall row accountId,
         element r = Some row ->
         (r_action row = CancelButton accountId <->
          closes (p_tip p) = None
          /\ r_finder row = Some accountId
          /\ In (toString accountId) la).
Proof.
  intros Hts Hla Hlm. run_TipRow Hts Hla Hlm.
  cbn [element].
  set (st := run_state toString (p_tip p) ts la).
  change (closesAt st) with (closes (p_tip p)).
  destruct (_ && _ && _); [done|]. intros row accountId [= <-].
  cbn [r_action r_finder].
  destruct (closes (p_tip p)) as [c|].
  - split; [|by intros (? & _)].
    destruct (p_bestNumber p) as [b|]; [destruct (BN_gt c b)|]; done.
  - subst st. cbn [finder isFinder run_state].
    destruct (fst (finder_deposit (p_tip p))) as [f|].
    + destruct (includes la (toString f)) eqn:Hinc.
      * apply includes_In in Hinc. split.
        -- by intros [= <-].
        -- by intros (_ & [= <-] & _).
      * split; [done|]. intros (_ & [= <-] & Hin).
        apply includes_In in Hin. congruence.
    + split; [done|]. by intros (_ & ? & _).
Qed.

(** X18. The close button acts for the first local account that is a
    council member.  It acts for no account when no local account is a
    member, and also when the first one that is has the empty address. *)
Theorem TipRow_close_account p (isMedianSelected : bool) (allAccounts : nat)
    h ts la lm :
  h !! tips (p_tip p) = Some (ArrTips ts) ->
  h !! allAccounts = Some (ArrStr la) ->
  h !! p_members p = Some (ArrStr lm) ->
  exists r h',
    TipRow toString p isMedianSelected allAccounts h = inr (r, h')
    /\ forall row accountId hash,
         element r = Some row ->
         r_button row = CloseButton accountId hash ->
         match accountId with
         | Some councilId =>
             councilId <> EmptyString
             /\ In councilId lm
             /\ exists before after,
                  la = before ++ councilId :: after
                  /\ forall a, In a before -> ~ In a lm
         | None =>
             (forall a, In a la -> ~ In a lm)
             \/ (In EmptyString lm
                 /\ exists before after,
                      la = before ++ EmptyString :: after
                      /\ forall a, In a before -> ~ In a lm)
         end.
Proof.
  intros Hts Hla Hlm. run_TipRow Hts Hla Hlm.
  cbn [element].
  destruct (_ && _ && _); [done|]. intros row accountId hash [= <-].
  cbn [r_button].
  destruct (closes (p_tip p)) as [c|];
    [destruct (p_bestNumber p) as [b|]; [destruct (BN_gt c b)|]|];
    try done.
  intros [= <- _].
  assert (Hnot : forall a, includes lm a = false -> ~ In a lm).
  { intros a Ha Hin. apply includes_In in Hin. congruence. }
  destruct (List.find (includes lm) la) as [s|] eqn:Hfind; simpl.
  - destruct (find_first _ _ _ Hfind) as (pre & post & -> & Hs & Hpre).
    apply includes_In in Hs.
    unfold truthy_string. destruct s as [|ch s]; simpl.
    + right. split; [done|]. exists pre, post. split; [done|].
      intros a Ha. by apply Hnot, Hpre.
    + split; [done|]. split; [done|]. exists pre, post. split; [done|].
      intros a Ha. by apply Hnot, Hpre.
  - left. intros a Ha. by apply Hnot, (find_none _ _ Hfind).
Qed.


(** X20. A render never throws and changes no object that existed before
    it: the contributions, the local accounts and the council members are
    as they were. *)
Theorem TipRow_pure p (isMedianSelected : bool) (allAccounts : nat)
    h ts la lm :
  h !! tips (p_tip p) = Some (ArrTips ts) ->
  h !! allAccounts = Some (ArrStr la) ->
  h !! p_members p = Some (ArrStr lm) ->
  exists r h',
    TipRow toString p isMedianSelected allAccounts h = inr (r, h')
    /\ (forall l a, h !! l = Some a -> h' !! l = Some a)
    /\ h' !! tips (p_tip p) = Some (ArrTips ts)
    /\ h' !! allAccounts = Some (ArrStr la)
    /\ h' !! p_members p = Some (ArrStr lm).
Proof.
  intros Hts Hla Hlm. run_TipRow Hts Hla Hlm.
  split; [|split; [|split]]; intros; by apply lookup_app_l_Some.
Qed.

(** X21. A rendered row lists the tippers exactly when there is a
    contribution: the list then has every contribution in the stored
    order, with their number and the median reported to [onSelect]. *)
Theorem TipRow_tippers p (isMedianSelected : bool) (allAccounts : nat)
    h ts la lm :
  h !! tips (p_tip p) = Some (ArrTips ts) ->
  h !! allAccounts = Some (ArrStr la) ->
  h !! p_members p = Some (ArrStr lm) ->
  exists r h',
    TipRow toString p isMedianSelected allAccounts h = inr (r, h')
    /\ forall row,
         element r = Some row ->
         (r_tippers row = None <-> ts = [])
         /\ forall count value children,
              r_tippers row = Some (count, value, children) ->
              count = Z.of_nat (length ts)
              /\ value = snd (onSelect_call r)
              /\ children = ts.
Proof.
  intros Hts Hla Hlm. run_TipRow Hts Hla Hlm.
  cbn [element onSelect_call snd].
  destruct (_ && _ && _); [done|]. intros row [= <-]. cbn [r_tippers].
  destruct ts as [|c ts']; split; try done.
  by intros count value children [= <- <- <-].
Qed.

End TipRowFacts.

(** X1. On a path of one segment that is not the base path there is no
    section, and the first item without an alias is taken for the alias:
    the location becomes the base path when that item is a root and the
    path of the item otherwise, whatever is hidden. *)
Theorem Tabs_redirect_one_segment rest basePath hidden before item after :
  has_char "/" rest = false ->
  String "/" rest <> basePath ->
  (forall other, In other before -> tab_alias other <> None) ->
  tab_alias item = None ->
  Tabs_redirect (String "/" rest) basePath hidden (before ++ item :: after)
  = Some (if truthy_flag (tab_isRoot item)
          then basePath
          else (basePath ++ "/" ++ tab_name item)%string).
Proof.
  intros Hrest Hne Hbefore Hitem. unfold Tabs_redirect.
  destruct (String.eqb_spec (String "/" rest) basePath); [done|].
  cbn [negb].
  assert (Hsec : section_of (String "/" rest) = None).
  { unfold section_of. simpl. by rewrite (split_no_separator "/" rest). }
  rewrite Hsec.
  assert (Hfind : List.find (fun it => strict_equal (tab_alias it) None)
                    (before ++ item :: after) = Some item).
  { clear -Hbefore Hitem.
    induction before as [|x before IH]; simpl.
    - by rewrite Hitem.
    - destruct (tab_alias x) eqn:Hx; simpl.
      + apply IH. intros other Hin. apply Hbefore. by right.
      + destruct (Hbefore x); [by left|done]. }
  by rewrite Hfind.
Qed.

(** ** The properties on the sample inputs *)

Lemma demo_alias_not (s : string) :
  s <> "rewards"%string -> s <> "old"%string ->
  forall item, In item Demo.items -> tab_alias item <> Some s.
Proof.
  intros H1 H2 item [<-|[<-|[<-|[]]]]; simpl; congruence.
Qed.

Lemma section_of_tab_path_witness :
  section_of "/staking/payouts" = Some "payouts"%string.
Proof.
  exact (section_of_tab_path "staking" "payouts" eq_refl eq_refl).
Defined.

Lemma Tabs_redirect_target_witness :
  "/staking/rewards"%string <> "/staking"%string
  /\ ("/staking/payouts"%string = "/staking"%string
      \/ exists item,
           In item Demo.items
           /\ tab_alias item = section_of "/staking/rewards"
           /\ truthy_flag (tab_isRoot item) = false
           /\ "/staking/payouts"%string
              = ("/staking" ++ "/" ++ tab_name item)%string).
Proof.
  exact (Tabs_redirect_target "/staking/rewards" "/staking" None Demo.items
           "/staking/payouts" eq_refl).
Defined.


Lemma Tabs_redirect_without_hidden_witness :
  Tabs_redirect "/staking/nope" "/staking" None Demo.items = None.
Proof.
  apply (Tabs_redirect_without_hidden "/staking/nope" "/staking" Demo.items).
  apply (demo_alias_not "nope"); discriminate.
Defined.

Lemma Tabs_redirect_with_hidden_witness :
  (Tabs_redirect "/staking/payouts" "/staking" (Some Demo.hidden) Demo.items
   = None <->
   exists item,
     In item (Tabs_filtered (Some Demo.hidden) Demo.items)
     /\ truthy_flag (tab_isRoot item) = false
     /\ section_of "/staking/payouts" = Some (tab_name item))
  /\ (Tabs_redirect "/staking/payouts" "/staking" (Some Demo.hidden)
        Demo.items = None
      \/ Tabs_redirect "/staking/payouts" "/staking" (Some Demo.hidden)
           Demo.items = Some "/staking"%string).
Proof.
  apply (Tabs_redirect_with_hidden "/staking/payouts" "/staking" Demo.hidden
           Demo.items); [discriminate|].
  apply (demo_alias_not "payouts"); discriminate.
Defined.

Lemma Tabs_redirect_stable_witness :
  Tabs_redirect "/staking/payouts" "/staking" (Some Demo.hidden) Demo.items
  = None.
Proof.
  apply (Tabs_redirect_stable "staking" (Some Demo.hidden) Demo.items
           Demo.payouts);
    [reflexivity | reflexivity | right; left; reflexivity | reflexivity |].
  apply (demo_alias_not "payouts"); discriminate.
Defined.

Lemma Tabs_redirect_one_segment_witness :
  Tabs_redirect "/stak" "/staking" (Some Demo.hidden)
    ([Demo.slashes] ++ Demo.overview :: [Demo.payouts])
  = Some "/staking"%string.
Proof.
  apply (Tabs_redirect_one_segment "stak" "/staking" (Some Demo.hidden)
           [Demo.slashes] Demo.overview [Demo.payouts]);
    [reflexivity | discriminate | | reflexivity].
  intros other [<-|[]]. discriminate.
Defined.

Lemma useAssetInfos_defined_witness :
  exists infos,
    useAssetInfos Demo.address Demo.show Demo.admin Demo.freezer Demo.issuer
      Demo.owner Demo.isEmpty Demo.local_accounts (Some Demo.assets)
      (Some Demo.asset_details) (Some Demo.asset_metadata)
    = inr (Some infos)
    /\ length infos = length Demo.assets
    /\ map ai_id infos = Demo.assets
    /\ forall i id,
         Demo.assets !! i = Some id ->
         exists d m,
           Demo.asset_details !! i = Some d
           /\ Demo.asset_metadata !! i = Some m
           /\ infos !! i
              = Some (extractInfo Demo.address Demo.show Demo.admin
                        Demo.freezer Demo.issuer Demo.owner Demo.isEmpty
                        Demo.local_accounts id d m).
Proof.
  exact (useAssetInfos_defined Demo.address Demo.show Demo.admin Demo.freezer
           Demo.issuer Demo.owner Demo.isEmpty Demo.local_accounts
           Demo.assets Demo.asset_details Demo.asset_metadata
           eq_refl eq_refl).
Defined.

Lemma TipRow_hidden_iff_witness :
  exists r h',
    TipRow Demo.address Demo.unclosed true 1%nat Demo.heap = inr (r, h')
    /\ (element r = None <->
        p_onlyUntipped Demo.unclosed = true
        /\ closes (p_tip Demo.unclosed) = None
        /\ exists account value,
             In (account, value)
               [("5Alice"%string, 30); ("5Bob"%string, 10)]
             /\ In (Demo.address account) Demo.local_accounts).
Proof.
  exact (TipRow_hidden_iff Demo.address Demo.unclosed true 1%nat Demo.heap
           _ _ _ eq_refl eq_refl eq_refl).
Defined.

Lemma TipRow_close_or_endorse_witness :
  exists r h',
    TipRow Demo.address Demo.reached false 1%nat Demo.heap = inr (r, h')
    /\ forall row,
         element r = Some row ->
         ((exists accountId, r_button row = CloseButton accountId "0xtip")
          <-> exists closesAt bestNumber,
                Some 100 = Some closesAt
                /\ Some 120 = Some bestNumber
                /\ closesAt <= bestNumber)
         /\ ((exists accountId, r_button row = CloseButton accountId "0xtip")
             \/ r_button row
                = TipEndorse None "0xtip" true true (snd (onSelect_call r))
                    2%nat).
Proof.
  exact (TipRow_close_or_endorse Demo.address Demo.reached false 1%nat
           Demo.heap _ _ _ eq_refl eq_refl eq_refl).
Defined.

Lemma TipRow_closing_timer_witness :
  exists r h',
    TipRow Demo.address Demo.waiting false 1%nat Demo.heap = inr (r, h')
    /\ forall row value number,
         element r = Some row ->
         (r_action row = ClosingTimer value number <->
          Some 100 = Some number
          /\ exists bestNumber,
               Some 90 = Some bestNumber
               /\ bestNumber < number
               /\ value = number - bestNumber)
         /\ (r_action row = ClosingTimer value number ->
             0 < value
             /\ forall accountId hash,
                  r_button row <> CloseButton accountId hash).
Proof.
  exact (TipRow_closing_timer Demo.address Demo.waiting false 1%nat
           Demo.heap _ _ _ eq_refl eq_refl eq_refl).
Defined.

Lemma TipRow_cancel_button_witness :
  exists r h',
    TipRow Demo.address Demo.unclosed false 1%nat Demo.heap = inr (r, h')
    /\ forall row accountId,
         element r = Some row ->
         (r_action row = CancelButton accountId <->
          closes (p_tip Demo.unclosed) = None
          /\ r_finder row = Some accountId
          /\ In (Demo.address accountId) Demo.local_accounts).
Proof.
  exact (TipRow_cancel_button Demo.address Demo.unclosed false 1%nat
           Demo.heap _ _ _ eq_refl eq_refl eq_refl).
Defined.

Lemma TipRow_close_account_witness :
  exists r h',
    TipRow Demo.address Demo.reached false 1%nat Demo.heap = inr (r, h')
    /\ forall row accountId hash,
         element r = Some row ->
         r_button row = CloseButton accountId hash ->
         match accountId with
         | Some councilId =>
             councilId <> EmptyString
             /\ In councilId ["5Erin"%string; "5Carol"%string]
             /\ exists before after,
                  Demo.local_accounts = before ++ councilId :: after
                  /\ forall a,
                       In a before ->
                       ~ In a ["5Erin"%string; "5Carol"%string]
         | None =>
             (forall a,
                In a Demo.local_accounts ->
                ~ In a ["5Erin"%string; "5Carol"%string])
             \/ (In EmptyString ["5Erin"%string; "5Carol"%string]
                 /\ exists before after,
                      Demo.local_accounts = before ++ EmptyString :: after
                      /\ forall a,
                           In a before ->
                           ~ In a ["5Erin"%string; "5Carol"%string])
         end.
Proof.
  exact (TipRow_close_account Demo.address Demo.reached false 1%nat
           Demo.heap _ _ _ eq_refl eq_refl eq_refl).
Defined.


Lemma TipRow_pure_witness :
  exists r h',
    TipRow Demo.address Demo.reached false 1%nat Demo.heap = inr (r, h')
    /\ (forall l a, Demo.heap !! l = Some a -> h' !! l = Some a)
    /\ h' !! 0%nat
       = Some (ArrTips [("5Alice"%string, 30); ("5Bob"%string, 10)])
    /\ h' !! 1%nat = Some (ArrStr Demo.local_accounts)
    /\ h' !! 2%nat = Some (ArrStr ["5Erin"%string; "5Carol"%string]).
Proof.
  exact (TipRow_pure Demo.address Demo.reached false 1%nat Demo.heap
           _ _ _ eq_refl eq_refl eq_refl).
Defined.

Lemma TipRow_tippers_witness :
  exists r h',
    TipRow Demo.address Demo.reached false 1%nat Demo.heap = inr (r, h')
    /\ forall row,
         element r = Some row ->
         (r_tippers row = None <->
          [("5Alice"%string, 30); ("5Bob"%string, 10)] = [])
         /\ forall count value children,
              r_tippers row = Some (count, value, children) ->
              count = 2
              /\ value = snd (onSelect_call r)
              /\ children = [("5Alice"%string, 30); ("5Bob"%string, 10)].
Proof.
  exact (TipRow_tippers Demo.address Demo.reached false 1%nat Demo.heap
           _ _ _ eq_refl eq_refl eq_refl).
Defined.
